(** * F5-TTS voice cloner: the orchestration of [voice_clone.py]

    A shallow embedding of [src/voice_clone.py]: the three functions
    [clone_voice], [clone_voice_batch] and [main], together with the parts of
    the Python runtime they rely on ([str.strip], [str.splitlines],
    [os.path.join], [os.path.abspath], the [03d] format), followed by the
    properties of the orchestration.

    Conventions.
    - A Python [str] is a sequence of Unicode code points: [list N].
    - A Python [int] is a [Z]; a Python [float] is a [PrimFloat.float]
      (binary64), only ever passed through or subtracted.
    - Whatever lives outside the script (file system, current directory,
      clock, the F5-TTS model) is an oracle of the record [Env]; every oracle
      receives the effects performed so far, so its answers may change after
      any effect (a model load may change the working directory).
    - A computation is a function from the effects performed so far to an
      outcome (a value or a raised exception) and the effects it adds.
    - [os.path] is [posixpath]; [argparse] is not modelled, [main] starts
      from the parsed namespace. *)

From Stdlib Require Import ZArith NArith QArith Bool Lia Ascii String DecimalString.
From Stdlib Require Import List Sorted.
From Stdlib Require Import Floats.PrimFloat.
From Stdlib Require DecimalN DecimalPos.
Import ListNotations.

Set Implicit Arguments.
Open Scope Z_scope.

(** ** Python strings *)

Module PyStr.

(** A character is its code point. *)
Definition char := N.
Definition str := list char.

(** The [str] of an ASCII literal of the source. *)
Definition lit (s : string) : str :=
  map N_of_ascii (list_ascii_of_string s).
Arguments lit s%_string.

Definition eqb (a b : str) : bool :=
  if list_eq_dec N.eq_dec a b then true else false.

(** [str.isspace] on one character: the code points CPython's
    [_PyUnicode_IsWhitespace] accepts. *)
Definition isspace (c : char) : bool :=
  (((9 <=? c) && (c <=? 13)) || ((28 <=? c) && (c <=? 32))
   || (c =? 133) || (c =? 160) || (c =? 5760)
   || ((8192 <=? c) && (c <=? 8202))
   || (c =? 8232) || (c =? 8233) || (c =? 8239) || (c =? 8287)
   || (c =? 12288))%N.

(** The line boundaries of [str.splitlines]: LF, VT, FF, CR, FS, GS, RS,
    NEL, LS, PS. *)
Definition islinebreak (c : char) : bool :=
  (((10 <=? c) && (c <=? 13)) || ((28 <=? c) && (c <=? 30))
   || (c =? 133) || (c =? 8232) || (c =? 8233))%N.

Fixpoint lstrip (s : str) : str :=
  match s with
  | c :: s' => if isspace c then lstrip s' else s
  | [] => []
  end.

Definition rstrip (s : str) : str := rev (lstrip (rev s)).

(** [s.strip()] *)
Definition strip (s : str) : str := rstrip (lstrip s).

(** [s.splitlines()]: [cur] is the current line, last character first.
    CR LF counts as one boundary; no empty last line is produced. *)
Fixpoint splitlines_from (cur : str) (s : str) : list str :=
  match s with
  | [] => match cur with [] => [] | _ :: _ => [rev cur] end
  | c :: rest =>
      if islinebreak c then
        rev cur ::
        match rest with
        | c' :: rest' =>
            if ((c =? 13) && (c' =? 10))%N then splitlines_from [] rest'
            else splitlines_from [] rest
        | [] => splitlines_from [] rest
        end
      else splitlines_from (c :: cur) rest
  end.

Definition splitlines (s : str) : list str := splitlines_from [] s.

(** [s.startswith(p)] *)
Fixpoint startswith (s p : str) {struct p} : bool :=
  match p, s with
  | [], _ => true
  | _ :: _, [] => false
  | x :: p', y :: s' => (x =? y)%N && startswith s' p'
  end.

(** [s.endswith(p)] *)
Definition endswith (s p : str) : bool := startswith (rev s) (rev p).

(** [s.split(sep)] for a one-character separator: always at least one
    piece. *)
Fixpoint split_from (sep : char) (cur : str) (s : str) : list str :=
  match s with
  | [] => [rev cur]
  | c :: rest =>
      if (c =? sep)%N then rev cur :: split_from sep [] rest
      else split_from sep (c :: cur) rest
  end.

Definition split (sep : char) (s : str) : list str := split_from sep [] s.

(** [sep.join(pieces)] *)
Fixpoint join (sep : str) (pieces : list str) : str :=
  match pieces with
  | [] => []
  | [p] => p
  | p :: ps => p ++ sep ++ join sep ps
  end.

(** [a < b] on [str]: lexicographic on code points. *)
Fixpoint ltb (a b : str) : bool :=
  match a, b with
  | _, [] => false
  | [], _ :: _ => true
  | x :: a', y :: b' =>
      if (x <? y)%N then true
      else if (x =? y)%N then ltb a' b' else false
  end.

(** [s[:n]] for [n >= 0]. *)
Definition slice_to (n : nat) (s : str) : str := firstn n s.

(** [len(s)], of a [str] or of a list. *)
Definition len {A} (s : list A) : Z := Z.of_nat (List.length s).

(** [str(n)] for an [int]. *)
Definition of_int (n : Z) : str :=
  lit (NilZero.string_of_int (Z.to_int n)).

(** [format(n, "03d")]: sign first, then zeros up to a total width of
    three, then the digits; never truncated. *)
Definition format_03d (n : Z) : str :=
  let sign := if n <? 0 then lit "-" else [] in
  let digits := of_int (Z.abs n) in
  sign ++ repeat 48%N (3 - List.length sign - List.length digits) ++ digits.

End PyStr.

Import PyStr.

(** ** [os.path] on a POSIX system ([posixpath]) *)

Module PosixPath.

Definition sep : char := 47%N.

(** [isabs(s)] *)
Definition isabs (s : str) : bool := startswith s [sep].

(** [join(a, b)] *)
Definition join (a b : str) : str :=
  if startswith b [sep] then b
  else if PyStr.eqb a [] || endswith a [sep] then a ++ b
  else a ++ [sep] ++ b.

Definition dot : str := lit ".".
Definition dotdot : str := lit "..".

(** The number of leading slashes [normpath] keeps: POSIX allows one or
    two, three or more count as one. *)
Definition initial_slashes (path : str) : nat :=
  if startswith path [sep] then
    if startswith path [sep; sep] && negb (startswith path [sep; sep; sep])
    then 2%nat else 1%nat
  else 0%nat.

(** One turn of the loop of [normpath] over the components; [new_comps]
    grows and shrinks at its end. *)
Definition normpath_step (slashes : nat) (new_comps : list str) (comp : str)
  : list str :=
  if PyStr.eqb comp [] || PyStr.eqb comp dot then new_comps
  else if negb (PyStr.eqb comp dotdot)
          || (Nat.eqb slashes 0
              && match new_comps with [] => true | _ => false end)
          || match new_comps with
             | [] => false
             | _ :: _ => PyStr.eqb (last new_comps []) dotdot
             end
  then new_comps ++ [comp]
  else removelast new_comps.

(** [normpath(path)] *)
Definition normpath (path : str) : str :=
  match path with
  | [] => dot
  | _ :: _ =>
      let slashes := initial_slashes path in
      let comps := fold_left (normpath_step slashes) (split sep path) [] in
      match repeat sep slashes ++ PyStr.join [sep] comps with
      | [] => dot
      | c :: p => c :: p
      end
  end.

(** [abspath(path)], with the answer of [os.getcwd()] as [cwd]. *)
Definition abspath (cwd path : str) : str :=
  normpath (if isabs path then path else join cwd path).

End PosixPath.

(** ** Effects *)

(** The identity of a loaded [F5TTS] object. *)
Definition handle := nat.

(** The keyword arguments of one [tts.infer(...)] call. *)
Module Infer.
Record args := {
  ref_file : str;
  ref_text : str;
  gen_text : str;
  file_wave : str;
  speed : float;
  nfe_step : Z;
  cfg_strength : float
}.

(** What the script uses of the triple [infer] returns: [len(wav)] and
    [sr]. *)
Record result := { wav_len : Z; sr : Z }.
End Infer.

Inductive exn :=
| FileNotFoundError (msg : str)
| SystemExit (code : Z)
| ZeroDivisionError
| TypeError
| Foreign (tag : N).   (* any exception of the runtime or of F5-TTS *)

Inductive outcome (A : Type) :=
| Ok (a : A)
| Raise (e : exn).
Arguments Raise {A} e.

(** The lines the script prints, with the values each one interpolates. *)
Inductive message :=
| MsgLoading (model : str)
| MsgGenerating (chars : Z) (speed : float) (nfe_step : Z) (cfg : float)
| MsgDone (elapsed : float) (output_path : str) (duration : Q)
| MsgNoLines
| MsgBatchStart (n : Z)
| MsgBatchItem (i n : Z) (label : str)
| MsgBatchDone (n : Z) (output_dir : str).

Inductive event :=
| Print (m : message)                          (* print(...) *)
| Makedirs (path : str)                        (* os.makedirs(path, exist_ok=True) *)
| Load (model : str) (r : outcome handle)      (* F5TTS(model=model) *)
| Synth (tts : handle) (a : Infer.args)        (* tts.infer(...) *)
| Usage (msg : str).                           (* parser.error(msg) *)

(** The world outside the script.  Each oracle receives the effects performed
    so far. *)
Record Env := {
  os_path_exists : list event -> str -> bool;
  os_getcwd : list event -> str;
  os_getcwd_isabs : forall log, PosixPath.isabs (os_getcwd log) = true;
  read_text : list event -> str -> outcome str;
  os_makedirs : list event -> str -> outcome unit;
  F5TTS : list event -> str -> outcome handle;
  tts_infer : list event -> handle -> Infer.args -> outcome Infer.result;
  time_time : list event -> float
}.

(** A computation: from the effects performed so far to an outcome and the
    effects it adds. *)
Definition M (A : Type) := list event -> outcome A * list event.

Definition ret {A} (a : A) : M A := fun _ => (Ok a, []).

Definition bind {A B} (m : M A) (f : A -> M B) : M B :=
  fun log =>
    match m log with
    | (Ok a, es) => let (r, es') := f a (log ++ es) in (r, es ++ es')
    | (Raise e, es) => (Raise e, es)
    end.

Definition raise {A} (e : exn) : M A := fun _ => (Raise e, []).

(** A query: no effect of its own. *)
Definition ask {A} (q : list event -> A) : M A := fun log => (Ok (q log), []).

(** A query that may raise. *)
Definition try {A} (q : list event -> outcome A) : M A := fun log => (q log, []).

(** An effect, logged whether it raises or not. *)
Definition perform {A} (ev : event) (q : list event -> outcome A) : M A :=
  fun log => (q log, [ev]).

Declare Scope py_scope.
Delimit Scope py_scope with py.
Notation "x <- m ;; k" := (bind m (fun x => k))
  (at level 100, m at next level, right associativity) : py_scope.
Notation "m ;; k" := (bind m (fun _ => k))
  (at level 100, right associativity) : py_scope.
Open Scope py_scope.

Definition print (m : message) : M unit := perform (Print m) (fun _ => Ok tt).

(** What the process reports to its parent. *)
Definition exit_status {A} (r : outcome A) : Z :=
  match r with
  | Ok _ => 0
  | Raise (SystemExit code) => code
  | Raise _ => 1
  end.

(** [a / b] on two [int]s; the rounding to binary64 is not modelled. *)
Definition truediv (a b : Z) : outcome Q :=
  if b =? 0 then Raise ZeroDivisionError
  else Ok (inject_Z a / inject_Z b)%Q.

(** ** The script *)

(** [len(wav) / sr if sr > 0 else 0] *)
Definition duration (wav_len sr : Z) : outcome Q :=
  if sr >? 0 then truediv wav_len sr else Ok 0%Q.

(** [[line.strip() for line in lines if line.strip()]] *)
Fixpoint stripped_nonblank (lines : list str) : list str :=
  match lines with
  | [] => []
  | line :: rest =>
      match strip line with
      | [] => stripped_nonblank rest
      | _ :: _ => strip line :: stripped_nonblank rest
      end
  end.

(** [f"clip_{i:03d}.wav"] *)
Definition clip_name (i : Z) : str := lit "clip_" ++ format_03d i ++ lit ".wav".

Definition quote : str := [34%N].

(** [f"\"{line[:80]}...\"" if len(line) > 80 else f"\"{line}\""] *)
Definition label (line : str) : str :=
  if len line >? 80 then quote ++ slice_to 80 line ++ lit "..." ++ quote
  else quote ++ line ++ quote.

Section Script.

Variable env : Env.

Definition os_path_abspath (path : str) : M str :=
  ask (fun log => PosixPath.abspath (os_getcwd env log) path).

Definition new_F5TTS (model : str) : M handle :=
  fun log => let r := F5TTS env log model in (r, [Load model r]).

Definition infer (tts : handle) (a : Infer.args) : M Infer.result :=
  perform (Synth tts a) (fun log => tts_infer env log tts a).

Definition clone_voice (ref_audio gen_text output_path model : str)
    (speed : float) (ref_text : str) (nfe_step : Z) (cfg_strength : float)
  : M str :=
  found <- ask (fun log => os_path_exists env log ref_audio) ;;
  if negb found then
    raise (FileNotFoundError (lit "Reference audio not found: " ++ ref_audio))
  else
    output_path <- os_path_abspath output_path ;;
    print (MsgLoading model) ;;
    tts <- new_F5TTS model ;;
    print (MsgGenerating (len gen_text) speed nfe_step cfg_strength) ;;
    start <- ask (time_time env) ;;
    res <- infer tts {| Infer.ref_file := ref_audio;
                        Infer.ref_text := ref_text;
                        Infer.gen_text := gen_text;
                        Infer.file_wave := output_path;
                        Infer.speed := speed;
                        Infer.nfe_step := nfe_step;
                        Infer.cfg_strength := cfg_strength |} ;;
    now <- ask (time_time env) ;;
    let elapsed := PrimFloat.sub now start in
    d <- (fun _ => (duration (Infer.wav_len res) (Infer.sr res), [])) ;;
    print (MsgDone elapsed output_path d) ;;
    ret output_path.

(** The [for i, line in enumerate(lines, 1)] loop: [i] is the index of the
    first of [lines], [n] is [len(lines)] of the whole batch. *)
Fixpoint batch_loop (tts : handle) (ref_audio ref_text output_dir : str)
    (speed : float) (nfe_step : Z) (cfg_strength : float)
    (n i : Z) (lines : list str) (outputs : list str) : M (list str) :=
  match lines with
  | [] => ret outputs
  | line :: rest =>
      let out_path := PosixPath.join output_dir (clip_name i) in
      print (MsgBatchItem i n (label line)) ;;
      infer tts {| Infer.ref_file := ref_audio;
                   Infer.ref_text := ref_text;
                   Infer.gen_text := line;
                   Infer.file_wave := out_path;
                   Infer.speed := speed;
                   Infer.nfe_step := nfe_step;
                   Infer.cfg_strength := cfg_strength |} ;;
      batch_loop tts ref_audio ref_text output_dir speed nfe_step
        cfg_strength n (i + 1) rest (outputs ++ [out_path])
  end.

Definition clone_voice_batch (ref_audio text_file output_dir model : str)
    (speed : float) (ref_text : str) (nfe_step : Z) (cfg_strength : float)
  : M (list str) :=
  text <- try (fun log => read_text env log text_file) ;;
  let lines := stripped_nonblank (splitlines text) in
  match lines with
  | [] => print MsgNoLines ;; ret []
  | _ :: _ =>
      output_dir <- os_path_abspath output_dir ;;
      perform (Makedirs output_dir) (fun log => os_makedirs env log output_dir) ;;
      print (MsgLoading model) ;;
      tts <- new_F5TTS model ;;
      print (MsgBatchStart (len lines)) ;;
      outputs <- batch_loop tts ref_audio ref_text output_dir speed nfe_step
                   cfg_strength (len lines) 1 lines [] ;;
      print (MsgBatchDone (len outputs) output_dir) ;;
      ret outputs
  end.

End Script.

(** The namespace [parser.parse_args()] returns. *)
Module Namespace.
Record t := {
  ref_audio : str;
  text : option str;
  text_file : option str;
  ref_text : str;
  output : str;
  output_dir : str;
  model : str;
  speed : float;
  nfe_step : Z;
  cfg_strength : float
}.

(** The same namespace with another [text]. *)
Definition with_text (a : t) (new_text : option str) : t := {|
  ref_audio := ref_audio a;
  text := new_text;
  text_file := text_file a;
  ref_text := ref_text a;
  output := output a;
  output_dir := output_dir a;
  model := model a;
  speed := speed a;
  nfe_step := nfe_step a;
  cfg_strength := cfg_strength a
|}.

(** The same namespace with another [text_file]. *)
Definition with_text_file (a : t) (new_text_file : option str) : t := {|
  ref_audio := ref_audio a;
  text := text a;
  text_file := new_text_file;
  ref_text := ref_text a;
  output := output a;
  output_dir := output_dir a;
  model := model a;
  speed := speed a;
  nfe_step := nfe_step a;
  cfg_strength := cfg_strength a
|}.
End Namespace.

(** The truth value of an optional string: [None] and [""] are false. *)
Definition truthy (o : option str) : bool :=
  match o with
  | Some (_ :: _) => true
  | _ => false
  end.

(** [parser.error(msg)]: usage and message on stderr, exit status 2. *)
Definition parser_error {A} (msg : str) : M A :=
  perform (Usage msg) (fun _ => Raise (SystemExit 2)).

(** [main()] after [parser.parse_args()].  The two [None] branches stand for
    passing [None] where a [str] is expected; the tests before them exclude
    both. *)
Definition main (env : Env) (args : Namespace.t) : M unit :=
  if negb (truthy (Namespace.text args)) && negb (truthy (Namespace.text_file args))
  then parser_error (lit "Provide either --text or --text_file")
  else if truthy (Namespace.text_file args) then
    match Namespace.text_file args with
    | Some text_file =>
        clone_voice_batch env (Namespace.ref_audio args) text_file
          (Namespace.output_dir args) (Namespace.model args)
          (Namespace.speed args) (Namespace.ref_text args)
          (Namespace.nfe_step args) (Namespace.cfg_strength args) ;;
        ret tt
    | None => raise TypeError
    end
  else
    match Namespace.text args with
    | Some gen_text =>
        clone_voice env (Namespace.ref_audio args) gen_text
          (Namespace.output args) (Namespace.model args)
          (Namespace.speed args) (Namespace.ref_text args)
          (Namespace.nfe_step args) (Namespace.cfg_strength args) ;;
        ret tt
    | None => raise TypeError
    end.

(** ** Reading an effect log *)

(** The synthesis calls, in order. *)
Fixpoint synth_calls (es : list event) : list (handle * Infer.args) :=
  match es with
  | [] => []
  | Synth tts a :: es' => (tts, a) :: synth_calls es'
  | _ :: es' => synth_calls es'
  end.

(** The text and the output file of each synthesis call, in order. *)
Definition synthesised (es : list event) : list (str * str) :=
  map (fun c => (Infer.gen_text (snd c), Infer.file_wave (snd c)))
      (synth_calls es).

(** The model loads, in order, each with what it returned. *)
Fixpoint loads (es : list event) : list (str * outcome handle) :=
  match es with
  | [] => []
  | Load model r :: es' => (model, r) :: loads es'
  | _ :: es' => loads es'
  end.

(** The directories created, in order. *)
Fixpoint made_dirs (es : list event) : list str :=
  match es with
  | [] => []
  | Makedirs path :: es' => path :: made_dirs es'
  | _ :: es' => made_dirs es'
  end.

(** The batch job in the words of the specification: the lines of the source,
    each trimmed, the empty ones dropped. *)
Definition trimmed_nonempty (lines : list str) : list str :=
  filter (fun line => negb (PyStr.eqb line [])) (map strip lines).

(** The output path of the [i]-th line of a batch, under [dir]. *)
Definition clip_path (dir : str) (i : nat) : str :=
  PosixPath.join dir (clip_name (Z.of_nat i)).

(** The arguments of the synthesis calls of a batch whose first line has
    index [s]. *)
Definition batch_args (ref_audio ref_text dir : str) (speed : float)
    (nfe_step : Z) (cfg_strength : float) (s : nat) (lines : list str)
  : list Infer.args :=
  map (fun '(i, line) =>
         {| Infer.ref_file := ref_audio;
            Infer.ref_text := ref_text;
            Infer.gen_text := line;
            Infer.file_wave := clip_path dir i;
            Infer.speed := speed;
            Infer.nfe_step := nfe_step;
            Infer.cfg_strength := cfg_strength |})
      (combine (seq s (length lines)) lines).

(** The decimal digit [d] as a character. *)
Definition digit (d : Z) : char := Z.to_N (48 + d).

(** Hundreds, tens and units of [i]. *)
Definition three_digits (i : Z) : str :=
  [digit (i / 100); digit (i / 10 mod 10); digit (i mod 10)].

(** [a < b] on [str], as a relation. *)
Definition str_lt (a b : str) : Prop := ltb a b = true.

(** A path component that [normpath] keeps as it is. *)
Definition clean (comp : str) : Prop :=
  comp <> [] /\ ~ In PosixPath.sep comp
  /\ comp <> PosixPath.dot /\ comp <> PosixPath.dotdot.

(** An absolute path in normal form: one or two slashes, then clean
    components separated by single slashes. *)
Definition normal_form (slashes : nat) (comps : list str) : str :=
  repeat PosixPath.sep slashes ++ PyStr.join [PosixPath.sep] comps.

(** A world where directory creation, model load and synthesis succeed. *)
Definition cooperative (env : Env) : Prop :=
  (forall log path, os_makedirs env log path = Ok tt)
  /\ (forall log model, exists tts, F5TTS env log model = Ok tts)
  /\ (forall log tts a, exists res, tts_infer env log tts a = Ok res).

(** The effects of the loop of a batch over [lines], the first of them with
    index [s]: for each line its progress message, then its synthesis call. *)
Definition batch_items (tts : handle) (ref_audio ref_text dir : str)
    (speed : float) (nfe_step : Z) (cfg_strength : float) (n : Z) (s : nat)
    (lines : list str) : list event :=
  flat_map (fun '(i, line) =>
              [Print (MsgBatchItem (Z.of_nat i) n (label line));
               Synth tts {| Infer.ref_file := ref_audio;
                            Infer.ref_text := ref_text;
                            Infer.gen_text := line;
                            Infer.file_wave := clip_path dir i;
                            Infer.speed := speed;
                            Infer.nfe_step := nfe_step;
                            Infer.cfg_strength := cfg_strength |}])
           (combine (seq s (length lines)) lines).

(** ** A concrete world, for running the script

    The reference [speaker.wav] exists, [missing.wav] does not; three text
    files; loading a model moves the working directory from [/home/user] to
    [/models]; synthesis needs the reference audio. *)
Module Sample.

Definition is_load (ev : event) : bool :=
  match ev with Load _ _ => true | _ => false end.

Definition is_synth (ev : event) : bool :=
  match ev with Synth _ _ => true | _ => false end.

Definition cwd (log : list event) : str :=
  if existsb is_load log then lit "/models" else lit "/home/user".

Lemma cwd_isabs log : PosixPath.isabs (cwd log) = true.
Proof. unfold cwd. destruct (existsb is_load log); reflexivity. Qed.

Definition lf : str := [10%N].

(** [script.txt], [five.txt] and [blank.txt]. *)
Definition script : str :=
  lf ++ lit "  " ++ lf ++ lit "Hello" ++ lf ++ lit "World" ++ lf ++ lf.
Definition five : str :=
  lit "one" ++ lf ++ lit "two" ++ lf ++ lit "three" ++ lf ++ lit "four"
  ++ lf ++ lit "five" ++ lf.
Definition blank : str := lit "   " ++ lf ++ lf ++ [9%N] ++ lf.

Definition files (path : str) : outcome str :=
  if PyStr.eqb path (lit "script.txt") then Ok script
  else if PyStr.eqb path (lit "five.txt") then Ok five
  else if PyStr.eqb path (lit "blank.txt") then Ok blank
  else Raise (FileNotFoundError path).

Definition present (path : str) : bool := PyStr.eqb path (lit "speaker.wav").

(** [strict]: synthesis raises when the reference audio is absent. *)
Definition world (strict : bool) : Env := {|
  os_path_exists := fun _ path => present path;
  os_getcwd := cwd;
  os_getcwd_isabs := cwd_isabs;
  read_text := fun _ path => files path;
  os_makedirs := fun _ _ => Ok tt;
  F5TTS := fun _ _ => Ok 7%nat;
  tts_infer := fun _ _ a =>
    if strict && negb (present (Infer.ref_file a))
    then Raise (Foreign 1)
    else Ok {| Infer.wav_len := 48000; Infer.sr := 24000 |};
  time_time := fun log => if existsb is_synth log then 12.5%float else 10%float
|}.

Definition env : Env := world true.
Definition studio : Env := world false.

(** [--ref_audio REF] with the defaults of the parser. *)
Definition defaults (ref : str) : Namespace.t := {|
  Namespace.ref_audio := ref;
  Namespace.text := None;
  Namespace.text_file := None;
  Namespace.ref_text := [];
  Namespace.output := lit "output.wav";
  Namespace.output_dir := lit "outputs";
  Namespace.model := lit "F5TTS_v1_Base";
  Namespace.speed := 1.0%float;
  Namespace.nfe_step := 32;
  Namespace.cfg_strength := 2.0%float
|}.

(** [--ref_audio REF --text TEXT] *)
Definition single (ref text : str) : Namespace.t :=
  Namespace.with_text (defaults ref) (Some text).

(** [--ref_audio REF --text_file FILE] *)
Definition batch (ref text_file : str) : Namespace.t :=
  Namespace.with_text_file (defaults ref) (Some text_file).

End Sample.

(** * Properties *)

(** ** Effect logs *)

Lemma synth_calls_app es es' :
  synth_calls (es ++ es') = synth_calls es ++ synth_calls es'.
Proof.
  induction es as [|[] es IH]; simpl; auto. now rewrite IH.
Qed.

Lemma loads_app es es' : loads (es ++ es') = loads es ++ loads es'.
Proof.
  induction es as [|[] es IH]; simpl; auto. now rewrite IH.
Qed.

Lemma made_dirs_app es es' :
  made_dirs (es ++ es') = made_dirs es ++ made_dirs es'.
Proof.
  induction es as [|[] es IH]; simpl; auto. now rewrite IH.
Qed.

(** ** The batch loop *)

Section BatchLoop.

Variable env : Env.
Variables (tts : handle) (ref_audio ref_text dir : str).
Variables (speed : float) (nfe_step : Z) (cfg_strength : float) (n : Z).

Let loop := batch_loop env tts ref_audio ref_text dir speed nfe_step
              cfg_strength n.
Let args_from := batch_args ref_audio ref_text dir speed nfe_step
                   cfg_strength.

Let args_of (i : Z) (line : str) : Infer.args :=
  {| Infer.ref_file := ref_audio;
     Infer.ref_text := ref_text;
     Infer.gen_text := line;
     Infer.file_wave := PosixPath.join dir (clip_name i);
     Infer.speed := speed;
     Infer.nfe_step := nfe_step;
     Infer.cfg_strength := cfg_strength |}.

(** One turn of the loop. *)
Lemma batch_loop_cons i line rest outputs log :
  loop i (line :: rest) outputs log =
  let item := Print (MsgBatchItem i n (label line)) in
  let call := Synth tts (args_of i line) in
  match tts_infer env (log ++ [item]) tts (args_of i line) with
  | Ok _ =>
      let (r, es) := loop (i + 1) rest
                       (outputs ++ [PosixPath.join dir (clip_name i)])
                       ((log ++ [item]) ++ [call]) in
      (r, item :: call :: es)
  | Raise e => (Raise e, [item; call])
  end.
Proof.
  unfold loop, args_of. simpl batch_loop.
  unfold bind, print, infer, perform. simpl.
  destruct (tts_infer env _ tts _); [|reflexivity].
  now destruct (batch_loop _ _ _ _ _ _ _ _ _ _ _ _ _).
Qed.

(** What any run of the loop does: it loads nothing, creates nothing, and
    synthesises an initial segment of the lines, each to its own clip; if it
    returns, it has synthesised them all. *)
Lemma batch_loop_run lines : forall s outputs log r es,
  loop (Z.of_nat s) lines outputs log = (r, es) ->
  loads es = [] /\ made_dirs es = []
  /\ (exists k, synth_calls es = map (pair tts) (firstn k (args_from s lines)))
  /\ (forall outs, r = Ok outs ->
        outs = outputs ++ map (clip_path dir) (seq s (length lines))
        /\ synth_calls es = map (pair tts) (args_from s lines)).
Proof.
  induction lines as [|line rest IH]; intros s outputs log r es Hrun.
  - inversion Hrun; subst. repeat split; simpl.
    + now exists 0%nat.
    + inversion H. now rewrite app_nil_r.
  - rewrite batch_loop_cons in Hrun. cbv zeta in Hrun.
    destruct (tts_infer env _ tts _) as [res|e] in Hrun.
    + replace (Z.of_nat s + 1) with (Z.of_nat (S s)) in Hrun by lia.
      destruct (loop (Z.of_nat (S s)) rest _ _) as [r' es'] eqn:Hrest.
      apply IH in Hrest. destruct Hrest as (Hl & Hm & [k Hk] & Hok).
      inversion Hrun; subst; clear Hrun.
      repeat split; auto.
      * exists (S k). simpl. now rewrite Hk.
      * destruct (Hok outs H) as [-> _].
        rewrite <- app_assoc. reflexivity.
      * destruct (Hok outs H) as [_ Hs]. simpl. now rewrite Hs.
    + inversion Hrun; subst; clear Hrun. repeat split; auto.
      * now exists 1%nat.
      * discriminate.
      * discriminate.
Qed.

(** In a world where synthesis succeeds the loop returns. *)
Lemma batch_loop_returns lines : forall i outputs log,
  (forall log' a, exists res, tts_infer env log' tts a = Ok res) ->
  exists outs, fst (loop i lines outputs log) = Ok outs.
Proof.
  induction lines as [|line rest IH]; intros i outputs log Hinfer.
  - now exists outputs.
  - rewrite batch_loop_cons. cbv zeta.
    destruct (Hinfer (log ++ [Print (MsgBatchItem i n (label line))])
                (args_of i line)) as [res ->].
    match goal with
    | |- context [loop ?i' rest ?o ?lg] =>
        destruct (IH i' o lg Hinfer) as [outs Houts];
        destruct (loop i' rest o lg) as [r' es']
    end.
    simpl in *. now exists outs.
Qed.

End BatchLoop.

(** ** The shape of a batch run *)

Section BatchRun.

Variable env : Env.
Variables (ref_audio text_file output_dir model : str).
Variables (speed : float) (ref_text : str) (nfe_step : Z).
Variable cfg_strength : float.
Variable log : list event.

Let run := clone_voice_batch env ref_audio text_file output_dir model speed
             ref_text nfe_step cfg_strength log.
Let dir := PosixPath.abspath (os_getcwd env log) output_dir.

(** A source without a non-blank line. *)
Lemma clone_voice_batch_blank text :
  read_text env log text_file = Ok text ->
  stripped_nonblank (splitlines text) = [] ->
  run = (Ok [], [Print MsgNoLines]).
Proof.
  intros Hread Hblank. unfold run, clone_voice_batch, bind, try.
  rewrite Hread, Hblank. reflexivity.
Qed.

(** A source with a non-blank line. *)
Lemma clone_voice_batch_unfold text :
  read_text env log text_file = Ok text ->
  let lines := stripped_nonblank (splitlines text) in
  lines <> [] ->
  run =
  match os_makedirs env log dir with
  | Raise e => (Raise e, [Makedirs dir])
  | Ok _ =>
      let pre := [Makedirs dir; Print (MsgLoading model)] in
      match F5TTS env (log ++ pre) model with
      | Raise e => (Raise e, pre ++ [Load model (Raise e)])
      | Ok tts =>
          let pre' := pre ++ [Load model (Ok tts);
                              Print (MsgBatchStart (len lines))] in
          match batch_loop env tts ref_audio ref_text dir speed nfe_step
                  cfg_strength (len lines) 1 lines [] (log ++ pre') with
          | (Ok outs, es) =>
              (Ok outs, pre' ++ es ++ [Print (MsgBatchDone (len outs) dir)])
          | (Raise e, es) => (Raise e, pre' ++ es)
          end
      end
  end.
Proof.
  intros Hread lines Hlines. unfold run, dir.
  cbv [clone_voice_batch bind try]. rewrite Hread. fold lines.
  destruct lines as [|l0 ls] eqn:El; [congruence|]. rewrite <- El.
  cbv [os_path_abspath ask print perform new_F5TTS ret].
  rewrite !app_nil_r. cbn [app].
  destruct (os_makedirs env log _); [|reflexivity].
  rewrite <- !app_assoc. cbn [app].
  destruct (F5TTS env _ model) as [tts|e]; [|reflexivity].
  destruct (batch_loop _ _ _ _ _ _ _ _ _ _ _ _ _) as [[outs|e] es].
  - rewrite ?app_nil_r. reflexivity.
  - reflexivity.
Qed.

(** Everything the properties below need about a run over at least one
    non-blank line. *)
Lemma clone_voice_batch_facts text r es :
  read_text env log text_file = Ok text ->
  let lines := stripped_nonblank (splitlines text) in
  let expected := batch_args ref_audio ref_text dir speed nfe_step
                    cfg_strength 1 lines in
  lines <> [] ->
  run = (r, es) ->
  (forall p, In p (made_dirs es) -> p = dir)
  /\ (length (loads es) <= 1)%nat
  /\ ((exists u, os_makedirs env log dir = Ok u) ->
      exists res, loads es = [(model, res)])
  /\ (forall tts a, In (tts, a) (synth_calls es) ->
      loads es = [(model, Ok tts)])
  /\ (exists k, map snd (synth_calls es) = firstn k expected)
  /\ (forall outs, r = Ok outs ->
      outs = map (clip_path dir) (seq 1 (length lines))
      /\ map snd (synth_calls es) = expected).
Proof.
  intros Hread lines expected Hlines Hrun.
  rewrite (clone_voice_batch_unfold Hread Hlines) in Hrun.
  fold lines in Hrun. cbv zeta in Hrun.
  destruct (os_makedirs env log dir) as [u|e].
  2:{ inversion Hrun; subst. cbn. repeat split; auto.
      - intros p [<-|[]]. reflexivity.
      - intros [u Hu]. discriminate.
      - intros tts a [].
      - now exists 0%nat.
      - discriminate.
      - discriminate. }
  destruct (F5TTS env _ model) as [tts|e].
  2:{ inversion Hrun; subst. cbn. repeat split; auto.
      - intros p [<-|[]]. reflexivity.
      - intros _. eauto.
      - intros tts a [].
      - now exists 0%nat.
      - discriminate.
      - discriminate. }
  change 1 with (Z.of_nat 1) in Hrun.
  destruct (batch_loop _ _ _ _ _ _ _ _ _ _ _ _ _) as [r' es'] eqn:Hloop.
  apply batch_loop_run in Hloop. destruct Hloop as (Hl & Hm & [k Hk] & Hok).
  assert (Hmap : forall l : list Infer.args, map snd (map (pair tts) l) = l).
  { intros l. rewrite map_map. cbn. apply map_id. }
  destruct r' as [outs'|e]; inversion Hrun; subst; clear Hrun; cbn;
    rewrite ?synth_calls_app, ?loads_app, ?made_dirs_app, Hl, Hm, Hk; cbn;
    rewrite ?app_nil_r, Hmap.
  - repeat split; auto.
    + intros p [<-|[]]. reflexivity.
    + intros _. eauto.
    + intros h a Hin. apply in_map_iff in Hin.
      destruct Hin as (a' & Ha' & _). now inversion Ha'.
    + now exists k.
    + destruct (Hok outs' eq_refl) as [-> _]. inversion H. reflexivity.
    + destruct (Hok outs' eq_refl) as [_ Hs]. rewrite Hk in Hs.
      apply (f_equal (map snd)) in Hs. now rewrite !Hmap in Hs.
  - repeat split; auto.
    + intros p [<-|[]]. reflexivity.
    + intros _. eauto.
    + intros h a Hin. apply in_map_iff in Hin.
      destruct Hin as (a' & Ha' & _). now inversion Ha'.
    + now exists k.
    + discriminate.
    + discriminate.
Qed.

(** In a cooperative world such a run returns. *)
Lemma clone_voice_batch_returns text :
  read_text env log text_file = Ok text ->
  cooperative env ->
  exists outs, fst run = Ok outs.
Proof.
  intros Hread (Hmk & Hload & Hinfer).
  destruct (stripped_nonblank (splitlines text)) as [|l0 ls] eqn:El.
  - rewrite (clone_voice_batch_blank Hread El). now exists [].
  - assert (Hne : stripped_nonblank (splitlines text) <> []) by congruence.
    rewrite (clone_voice_batch_unfold Hread Hne). cbv zeta.
    rewrite Hmk.
    match goal with
    | |- context [F5TTS env ?lg model] => destruct (Hload lg model) as [tts ->]
    end.
    match goal with
    | |- context [batch_loop env tts ?a ?b ?c ?d ?e ?f ?g ?i ?l ?o ?lg] =>
        destruct (batch_loop_returns env tts a b c d e f g l i o lg
                    (fun log' a' => Hinfer log' tts a')) as [outs Houts];
        destruct (batch_loop env tts a b c d e f g i l o lg) as [[x|x] es']
    end; cbn in *; try discriminate. now exists x.
Qed.

End BatchRun.

(** ** Clip names *)

Lemma format_03d_three_digits (i : nat) :
  (i < 1000)%nat -> format_03d (Z.of_nat i) = three_digits (Z.of_nat i).
Proof.
  intros Hi.
  assert (Hall : forallb (fun k => PyStr.eqb (format_03d (Z.of_nat k))
                                     (three_digits (Z.of_nat k)))
                   (seq 0 1000) = true) by (vm_compute; reflexivity).
  rewrite forallb_forall in Hall.
  specialize (Hall i). unfold PyStr.eqb in Hall.
  destruct (list_eq_dec _ _ _); [assumption|].
  discriminate Hall. apply in_seq. lia.
Qed.

Lemma ltb_irrefl (a : str) : ltb a a = false.
Proof.
  induction a as [|x a IH]; [reflexivity|]. simpl.
  now rewrite N.ltb_irrefl, N.eqb_refl.
Qed.

Lemma ltb_app (p a b : str) : ltb (p ++ a) (p ++ b) = ltb a b.
Proof.
  induction p as [|x p IH]; [reflexivity|]. simpl.
  now rewrite N.ltb_irrefl, N.eqb_refl.
Qed.

Lemma digit_ltb (a b : Z) :
  0 <= a -> 0 <= b -> (digit a <? digit b)%N = (a <? b).
Proof.
  intros Ha Hb. unfold digit.
  destruct (N.ltb_spec (Z.to_N (48 + a)) (Z.to_N (48 + b)));
    destruct (Z.ltb_spec a b); auto; lia.
Qed.

Lemma digit_eqb (a b : Z) :
  0 <= a -> 0 <= b -> (digit a =? digit b)%N = (a =? b).
Proof.
  intros Ha Hb. unfold digit.
  destruct (N.eqb_spec (Z.to_N (48 + a)) (Z.to_N (48 + b)));
    destruct (Z.eqb_spec a b); auto; lia.
Qed.

(** On three digits the order of the strings is the order of the numbers. *)
Lemma three_digits_ltb (i j : Z) (suffix : str) :
  0 <= i -> i < j -> j < 1000 ->
  ltb (three_digits i ++ suffix) (three_digits j ++ suffix) = true.
Proof.
  intros Hi Hij Hj. unfold three_digits. cbn [app ltb].
  rewrite !digit_ltb, !digit_eqb
    by (try apply Z.div_pos; try apply Z.mod_pos_bound; lia).
  destruct (Z.ltb_spec (i / 100) (j / 100)); [reflexivity|].
  destruct (Z.eqb_spec (i / 100) (j / 100));
    [|exfalso; Z.div_mod_to_equations; lia].
  destruct (Z.ltb_spec (i / 10 mod 10) (j / 10 mod 10)); [reflexivity|].
  destruct (Z.eqb_spec (i / 10 mod 10) (j / 10 mod 10));
    [|exfalso; Z.div_mod_to_equations; lia].
  destruct (Z.ltb_spec (i mod 10) (j mod 10)); [reflexivity|].
  exfalso; Z.div_mod_to_equations; lia.
Qed.

(** A clip name never starts with a slash, so [join] appends it. *)
Lemma clip_path_app (dir : str) :
  exists prefix, forall k,
    clip_path dir k = prefix ++ format_03d (Z.of_nat k) ++ lit ".wav".
Proof.
  unfold clip_path, PosixPath.join, clip_name.
  change (fun k => startswith (lit "clip_" ++ _) [PosixPath.sep])
    with (fun _ : nat => false).
  destruct (PyStr.eqb dir [] || endswith dir [PosixPath.sep]).
  - exists (dir ++ lit "clip_"). intros k.
    change (startswith (lit "clip_" ++ _) [PosixPath.sep]) with false.
    cbv iota. now rewrite <- app_assoc.
  - exists (dir ++ [PosixPath.sep] ++ lit "clip_"). intros k.
    change (startswith (lit "clip_" ++ _) [PosixPath.sep]) with false.
    cbv iota. now rewrite <- !app_assoc.
Qed.

Lemma clip_path_lt (dir : str) (i j : nat) :
  (i < j)%nat -> (j < 1000)%nat -> str_lt (clip_path dir i) (clip_path dir j).
Proof.
  intros Hij Hj. destruct (clip_path_app dir) as [prefix Hp].
  unfold str_lt. rewrite !Hp, ltb_app.
  rewrite !format_03d_three_digits by lia.
  apply three_digits_ltb; lia.
Qed.

Lemma str_lt_irrefl (a : str) : ~ str_lt a a.
Proof. unfold str_lt. now rewrite ltb_irrefl. Qed.

(** The paths of a batch of at most 999 clips are in increasing order. *)
Lemma clip_paths_sorted (dir : str) (n : nat) : forall s,
  (s + n <= 1000)%nat ->
  StronglySorted str_lt (map (clip_path dir) (seq s n)).
Proof.
  induction n as [|n IH]; intros s Hs; simpl; constructor.
  - apply IH. lia.
  - apply Forall_forall. intros p Hp. apply in_map_iff in Hp.
    destruct Hp as (j & <- & Hj). apply in_seq in Hj.
    apply clip_path_lt; lia.
Qed.

Lemma sorted_NoDup (l : list str) : StronglySorted str_lt l -> NoDup l.
Proof.
  induction 1 as [|a l Hs IH Hall]; constructor; auto.
  intros Hin. rewrite Forall_forall in Hall.
  exact (str_lt_irrefl (Hall a Hin)).
Qed.

Lemma batch_args_texts_files ref_audio ref_text dir speed nfe_step cfg_strength
    (lines : list str) : forall s,
  map (fun a => (Infer.gen_text a, Infer.file_wave a))
      (batch_args ref_audio ref_text dir speed nfe_step cfg_strength s lines)
  = combine lines (map (clip_path dir) (seq s (length lines))).
Proof.
  unfold batch_args.
  induction lines as [|line rest IH]; intros s; [reflexivity|].
  simpl. now rewrite IH.
Qed.

(** ** Batch naming *)

(** C3. A batch of [n] non-blank lines, [1 <= n <= 999], that runs to its end
    has synthesised its [i]-th line (from 1, in input order) to
    [clip_{i:03d}.wav] under the resolved output directory, the index written
    with its three digits; these [n] paths are pairwise distinct, increase
    with the line number in the order of strings, and are exactly the list
    [clone_voice_batch] returns.  In a world where directory creation, model
    load and synthesis succeed the batch does run to its end. *)
Theorem batch_naming env ref_audio text_file output_dir model speed ref_text
    nfe_step cfg_strength log text :
  read_text env log text_file = Ok text ->
  let lines := stripped_nonblank (splitlines text) in
  let n := length lines in
  (1 <= n <= 999)%nat ->
  let dir := PosixPath.abspath (os_getcwd env log) output_dir in
  let paths := map (clip_path dir) (seq 1 n) in
  let run := clone_voice_batch env ref_audio text_file output_dir model speed
               ref_text nfe_step cfg_strength log in
  (forall i, (1 <= i <= n)%nat ->
     clip_path dir i =
     PosixPath.join dir
       (lit "clip_" ++ three_digits (Z.of_nat i) ++ lit ".wav"))
  /\ NoDup paths
  /\ StronglySorted str_lt paths
  /\ (forall outs es, run = (Ok outs, es) ->
        outs = paths /\ synthesised es = combine lines paths)
  /\ (cooperative env -> exists es, run = (Ok paths, es)).
Proof.
  intros Hread lines n Hn dir paths run.
  assert (Hsorted : StronglySorted str_lt paths)
    by (apply clip_paths_sorted; lia).
  assert (Hne : lines <> []).
  { intros E. subst n. rewrite E in Hn. simpl in Hn. lia. }
  assert (Hok : forall outs es, run = (Ok outs, es) ->
                  outs = paths /\ synthesised es = combine lines paths).
  { intros outs es Hrun.
    destruct (@clone_voice_batch_facts env ref_audio text_file output_dir
                model speed ref_text nfe_step cfg_strength log text _ _ Hread
                Hne Hrun) as (_ & _ & _ & _ & _ & Hret).
    destruct (Hret outs eq_refl) as [-> Hcalls]. split; [reflexivity|].
    unfold synthesised.
    rewrite <- (map_map snd (fun a => (Infer.gen_text a, Infer.file_wave a))).
    rewrite Hcalls.
    apply batch_args_texts_files. }
  refine (conj _ (conj _ (conj Hsorted (conj Hok _)))).
  - intros i Hi. unfold clip_path, clip_name.
    rewrite format_03d_three_digits by lia. reflexivity.
  - now apply sorted_NoDup.
  - intros Hcoop.
    destruct (@clone_voice_batch_returns env ref_audio text_file output_dir
                model speed ref_text nfe_step cfg_strength log text Hread
                Hcoop) as [outs Houts].
    fold run in Houts. destruct run as [r es] eqn:Hrun. simpl in Houts.
    subst r. exists es. now destruct (Hok outs es eq_refl) as [-> _].
Qed.

Lemma studio_cooperative : cooperative Sample.studio.
Proof.
  repeat split; intros; simpl; eauto.
Defined.

Lemma batch_naming_witness :
  read_text Sample.studio [] (lit "five.txt") = Ok Sample.five
  /\ (1 <= length (stripped_nonblank (splitlines Sample.five)) <= 999)%nat
  /\ exists es,
       clone_voice_batch Sample.studio (lit "speaker.wav") (lit "five.txt")
         (lit "outputs") (lit "F5TTS_v1_Base") 1%float [] 32 2%float []
       = (Ok [lit "/home/user/outputs/clip_001.wav";
              lit "/home/user/outputs/clip_002.wav";
              lit "/home/user/outputs/clip_003.wav";
              lit "/home/user/outputs/clip_004.wav";
              lit "/home/user/outputs/clip_005.wav"], es).
Proof.
  assert (Hn : (1 <= length (stripped_nonblank (splitlines Sample.five))
                <= 999)%nat) by (vm_compute; lia).
  split; [reflexivity|]. split; [exact Hn|].
  apply (batch_naming Sample.studio (lit "speaker.wav") (lit "five.txt")
           (lit "outputs") (lit "F5TTS_v1_Base") 1%float [] 32 2%float []
           (text := Sample.five) eq_refl Hn).
  exact studio_cooperative.
Defined.

(** ** One model per batch *)

(** C5. In a batch invocation over at least one non-blank line the model is
    never loaded twice; once the output directory has been created it is
    loaded exactly once, with the model name given; and every synthesis call
    of the invocation is made on the handle that this one load returned. *)
Theorem model_loaded_once env ref_audio text_file output_dir model speed
    ref_text nfe_step cfg_strength log text :
  read_text env log text_file = Ok text ->
  stripped_nonblank (splitlines text) <> [] ->
  let dir := PosixPath.abspath (os_getcwd env log) output_dir in
  let es := snd (clone_voice_batch env ref_audio text_file output_dir model
                   speed ref_text nfe_step cfg_strength log) in
  (length (loads es) <= 1)%nat
  /\ ((exists u, os_makedirs env log dir = Ok u) ->
      exists res, loads es = [(model, res)])
  /\ (forall tts a, In (tts, a) (synth_calls es) ->
      loads es = [(model, Ok tts)]).
Proof.
  intros Hread Hne dir es.
  destruct (@clone_voice_batch_facts env ref_audio text_file output_dir model
              speed ref_text nfe_step cfg_strength log text _ _ Hread Hne
              (surjective_pairing _))
    as (_ & Hle & Hone & Hsame & _).
  auto.
Qed.

Lemma model_loaded_once_witness :
  read_text Sample.env [] (lit "script.txt") = Ok Sample.script
  /\ stripped_nonblank (splitlines Sample.script) <> []
  /\ let es := snd (clone_voice_batch Sample.env (lit "speaker.wav")
                      (lit "script.txt") (lit "outputs") (lit "F5TTS_v1_Base")
                      1%float [] 32 2%float []) in
     loads es = [(lit "F5TTS_v1_Base", Ok 7%nat)]
     /\ map fst (synth_calls es) = [7%nat; 7%nat].
Proof.
  assert (Hne : stripped_nonblank (splitlines Sample.script) <> [])
    by (vm_compute; discriminate).
  split; [reflexivity|]. split; [exact Hne|].
  destruct (model_loaded_once Sample.env (lit "speaker.wav")
              (lit "script.txt") (lit "outputs") (lit "F5TTS_v1_Base")
              1%float [] 32 2%float [] (text := Sample.script) eq_refl Hne)
    as (_ & _ & Hsame).
  split.
  - apply (Hsame 7%nat
             {| Infer.ref_file := lit "speaker.wav";
                Infer.ref_text := [];
                Infer.gen_text := lit "Hello";
                Infer.file_wave := lit "/home/user/outputs/clip_001.wav";
                Infer.speed := 1%float;
                Infer.nfe_step := 32;
                Infer.cfg_strength := 2%float |}).
    vm_compute. left. reflexivity.
  - vm_compute. reflexivity.
Defined.

(** ** The shape of a single run *)

Section SingleRun.

Variable env : Env.
Variables (ref_audio gen_text output_path model : str).
Variables (speed : float) (ref_text : str) (nfe_step : Z).
Variable cfg_strength : float.
Variable log : list event.

Let run := clone_voice env ref_audio gen_text output_path model speed
             ref_text nfe_step cfg_strength log.
Let path := PosixPath.abspath (os_getcwd env log) output_path.
Let call : Infer.args :=
  {| Infer.ref_file := ref_audio;
     Infer.ref_text := ref_text;
     Infer.gen_text := gen_text;
     Infer.file_wave := path;
     Infer.speed := speed;
     Infer.nfe_step := nfe_step;
     Infer.cfg_strength := cfg_strength |}.

Lemma clone_voice_unfold :
  run =
  if os_path_exists env log ref_audio then
    let loading := Print (MsgLoading model) in
    match F5TTS env (log ++ [loading]) model with
    | Raise e => (Raise e, [loading; Load model (Raise e)])
    | Ok tts =>
        let pre := [loading; Load model (Ok tts);
                    Print (MsgGenerating (len gen_text) speed nfe_step
                             cfg_strength)] in
        match tts_infer env (log ++ pre) tts call with
        | Raise e => (Raise e, pre ++ [Synth tts call])
        | Ok res =>
            let elapsed :=
              PrimFloat.sub (time_time env (log ++ pre ++ [Synth tts call]))
                            (time_time env (log ++ pre)) in
            match duration (Infer.wav_len res) (Infer.sr res) with
            | Ok d =>
                (Ok path,
                 pre ++ [Synth tts call; Print (MsgDone elapsed path d)])
            | Raise e => (Raise e, pre ++ [Synth tts call])
            end
        end
    end
  else
    (Raise (FileNotFoundError (lit "Reference audio not found: " ++ ref_audio)),
     []).
Proof.
  unfold run, call, path.
  cbv [clone_voice bind ask raise]. rewrite ?app_nil_r.
  destruct (os_path_exists env log ref_audio); [|reflexivity].
  cbv [negb os_path_abspath ask print perform new_F5TTS infer ret].
  rewrite ?app_nil_r. cbn [app].
  destruct (F5TTS env _ model) as [tts|e]; [|reflexivity].
  rewrite <- ?app_assoc. cbn [app]. rewrite ?app_nil_r.
  destruct (tts_infer env _ tts _) as [res|e]; [|reflexivity].
  destruct (duration _ _); reflexivity.
Qed.

End SingleRun.

(** ** Audio duration *)

Lemma duration_returns wav_len sr : exists d, duration wav_len sr = Ok d.
Proof.
  unfold duration, truediv.
  destruct (Z.gtb_spec sr 0) as [Hpos|Hle]; [|eauto].
  destruct (Z.eqb_spec sr 0); [lia|eauto].
Qed.

(** A single run whose reference exists and whose load and synthesis
    succeed returns the resolved path, after one synthesis call and the
    closing message with the elapsed time and the duration. *)
Lemma clone_voice_returns env ref_audio gen_text output_path model speed
    ref_text nfe_step cfg_strength log tts res :
  let path := PosixPath.abspath (os_getcwd env log) output_path in
  let call := {| Infer.ref_file := ref_audio;
                 Infer.ref_text := ref_text;
                 Infer.gen_text := gen_text;
                 Infer.file_wave := path;
                 Infer.speed := speed;
                 Infer.nfe_step := nfe_step;
                 Infer.cfg_strength := cfg_strength |} in
  let pre := [Print (MsgLoading model); Load model (Ok tts);
              Print (MsgGenerating (len gen_text) speed nfe_step
                       cfg_strength)] in
  os_path_exists env log ref_audio = true ->
  F5TTS env (log ++ [Print (MsgLoading model)]) model = Ok tts ->
  tts_infer env (log ++ pre) tts call = Ok res ->
  exists elapsed d,
    duration (Infer.wav_len res) (Infer.sr res) = Ok d
    /\ clone_voice env ref_audio gen_text output_path model speed ref_text
         nfe_step cfg_strength log
       = (Ok path, pre ++ [Synth tts call; Print (MsgDone elapsed path d)]).
Proof.
  intros path call pre Hexists Hload Hinfer.
  rewrite clone_voice_unfold, Hexists. cbv zeta.
  rewrite Hload. fold path call pre. rewrite Hinfer.
  destruct (duration_returns (Infer.wav_len res) (Infer.sr res)) as [d Hd].
  rewrite Hd. eauto.
Qed.

(** C6. The duration computed from a synthesis result is 0 when the sample
    rate is 0, and [waveform_length / sample_rate] when the sample rate is
    positive; the computation never raises, a division by zero in
    particular, so a single run whose synthesis call returned goes on to
    return its output path. *)
Theorem duration_guard wav_len sr :
  (sr = 0 -> duration wav_len sr = Ok 0%Q)
  /\ (0 < sr ->
      duration wav_len sr = Ok (inject_Z wav_len / inject_Z sr)%Q)
  /\ (forall e, duration wav_len sr <> Raise e)
  /\ (forall env ref_audio gen_text output_path model speed ref_text nfe_step
        cfg_strength log tts,
        let path := PosixPath.abspath (os_getcwd env log) output_path in
        let call := {| Infer.ref_file := ref_audio;
                       Infer.ref_text := ref_text;
                       Infer.gen_text := gen_text;
                       Infer.file_wave := path;
                       Infer.speed := speed;
                       Infer.nfe_step := nfe_step;
                       Infer.cfg_strength := cfg_strength |} in
        let pre := [Print (MsgLoading model); Load model (Ok tts);
                    Print (MsgGenerating (len gen_text) speed nfe_step
                             cfg_strength)] in
        os_path_exists env log ref_audio = true ->
        F5TTS env (log ++ [Print (MsgLoading model)]) model = Ok tts ->
        tts_infer env (log ++ pre) tts call
        = Ok {| Infer.wav_len := wav_len; Infer.sr := sr |} ->
        exists elapsed d,
          duration wav_len sr = Ok d
          /\ clone_voice env ref_audio gen_text output_path model speed
               ref_text nfe_step cfg_strength log
             = (Ok path,
                pre ++ [Synth tts call; Print (MsgDone elapsed path d)])).
Proof.
  refine (conj _ (conj _ (conj _ _))).
  - intros ->. reflexivity.
  - intros Hpos. unfold duration, truediv.
    destruct (Z.gtb_spec sr 0); [|lia].
    destruct (Z.eqb_spec sr 0); [lia|reflexivity].
  - intros e He. destruct (duration_returns wav_len sr) as [d Hd].
    congruence.
  - intros env ref_audio gen_text output_path model speed ref_text nfe_step
      cfg_strength log tts path call pre Hexists Hload Hinfer.
    apply (clone_voice_returns env ref_audio gen_text output_path model speed
             ref_text nfe_step cfg_strength log Hexists Hload Hinfer).
Qed.

Lemma duration_guard_witness :
  duration 48000 0 = Ok 0%Q
  /\ (0 < 24000 /\ duration 48000 24000 = Ok (48000 # 24000)%Q)
  /\ exists elapsed d,
       clone_voice Sample.env (lit "speaker.wav") (lit "Hi") (lit "output.wav")
         (lit "F5TTS_v1_Base") 1%float [] 32 2%float []
       = (Ok (lit "/home/user/output.wav"),
          [Print (MsgLoading (lit "F5TTS_v1_Base"));
           Load (lit "F5TTS_v1_Base") (Ok 7%nat);
           Print (MsgGenerating 2 1%float 32 2%float);
           Synth 7%nat {| Infer.ref_file := lit "speaker.wav";
                          Infer.ref_text := [];
                          Infer.gen_text := lit "Hi";
                          Infer.file_wave := lit "/home/user/output.wav";
                          Infer.speed := 1%float;
                          Infer.nfe_step := 32;
                          Infer.cfg_strength := 2%float |};
           Print (MsgDone elapsed (lit "/home/user/output.wav") d)]).
Proof.
  split; [|split].
  - apply (proj1 (duration_guard 48000 0)). reflexivity.
  - split; [lia|].
    apply (proj1 (proj2 (duration_guard 48000 24000))). lia.
  - destruct (duration_guard 48000 24000) as (_ & _ & _ & Hrun).
    destruct (Hrun Sample.env (lit "speaker.wav") (lit "Hi")
                (lit "output.wav") (lit "F5TTS_v1_Base") 1%float [] 32
                2%float [] 7%nat eq_refl eq_refl eq_refl)
      as (elapsed & d & _ & Heq).
    exists elapsed, d. exact Heq.
Defined.

(** ** Dispatch *)

Section Dispatch.

Variable env : Env.
Variable args : Namespace.t.
Variable log : list event.

(** The two calls [main] can make, with the arguments it passes. *)
Let batch_call (text_file : str) : M (list str) :=
  clone_voice_batch env (Namespace.ref_audio args) text_file
    (Namespace.output_dir args) (Namespace.model args)
    (Namespace.speed args) (Namespace.ref_text args)
    (Namespace.nfe_step args) (Namespace.cfg_strength args).
Let single_call (gen_text : str) : M str :=
  clone_voice env (Namespace.ref_audio args) gen_text
    (Namespace.output args) (Namespace.model args)
    (Namespace.speed args) (Namespace.ref_text args)
    (Namespace.nfe_step args) (Namespace.cfg_strength args).

Lemma then_ret_tt A (m : M A) :
  (m ;; ret tt) log =
  (match fst (m log) with Ok _ => Ok tt | Raise e => Raise e end,
   snd (m log)).
Proof.
  unfold bind, ret. destruct (m log) as [[a|e] es]; simpl; auto.
  now rewrite app_nil_r.
Qed.

Lemma main_usage :
  truthy (Namespace.text args) = false ->
  truthy (Namespace.text_file args) = false ->
  main env args log =
  (Raise (SystemExit 2), [Usage (lit "Provide either --text or --text_file")]).
Proof. intros Ht Hf. unfold main. rewrite Ht, Hf. reflexivity. Qed.

Lemma main_batch text_file :
  Namespace.text_file args = Some text_file ->
  text_file <> [] ->
  main env args log = (batch_call text_file ;; ret tt) log.
Proof.
  intros Hf Hne. unfold main. rewrite Hf.
  destruct text_file as [|c f]; [congruence|]. simpl.
  now rewrite andb_false_r.
Qed.

Lemma main_single gen_text :
  truthy (Namespace.text_file args) = false ->
  Namespace.text args = Some gen_text ->
  gen_text <> [] ->
  main env args log = (single_call gen_text ;; ret tt) log.
Proof.
  intros Hf Ht Hne. unfold main. rewrite Hf, Ht.
  destruct gen_text as [|c t]; [congruence|]. reflexivity.
Qed.

End Dispatch.

(** C8, as the code has it. [main] tests the truth value of the two
    arguments, so an empty string counts as not supplied: with neither a
    non-empty text nor a non-empty text-file path the process prints the usage
    message and exits with status 2, no synthesis attempted; with a non-empty
    text-file path it runs the batch; otherwise it runs the single clone on
    the text. *)
Theorem dispatch_by_truth env args log :
  (truthy (Namespace.text args) = false ->
   truthy (Namespace.text_file args) = false ->
   main env args log =
   (Raise (SystemExit 2), [Usage (lit "Provide either --text or --text_file")])
   /\ exit_status (fst (main env args log)) <> 0
   /\ synth_calls (snd (main env args log)) = []
   /\ loads (snd (main env args log)) = [])
  /\ (forall text_file,
        Namespace.text_file args = Some text_file -> text_file <> [] ->
        main env args log =
        (clone_voice_batch env (Namespace.ref_audio args) text_file
           (Namespace.output_dir args) (Namespace.model args)
           (Namespace.speed args) (Namespace.ref_text args)
           (Namespace.nfe_step args) (Namespace.cfg_strength args) ;;
         ret tt) log)
  /\ (forall gen_text,
        truthy (Namespace.text_file args) = false ->
        Namespace.text args = Some gen_text -> gen_text <> [] ->
        main env args log =
        (clone_voice env (Namespace.ref_audio args) gen_text
           (Namespace.output args) (Namespace.model args)
           (Namespace.speed args) (Namespace.ref_text args)
           (Namespace.nfe_step args) (Namespace.cfg_strength args) ;;
         ret tt) log).
Proof.
  refine (conj _ (conj _ _)).
  - intros Ht Hf. rewrite (main_usage env args log Ht Hf).
    repeat split; simpl; auto. discriminate.
  - intros text_file. apply main_batch.
  - intros gen_text. apply main_single.
Qed.

Lemma dispatch_by_truth_witness :
  main Sample.env (Sample.defaults (lit "speaker.wav")) [] =
  (Raise (SystemExit 2), [Usage (lit "Provide either --text or --text_file")])
  /\ main Sample.env (Sample.batch (lit "speaker.wav") (lit "script.txt")) [] =
     (clone_voice_batch Sample.env (lit "speaker.wav") (lit "script.txt")
        (lit "outputs") (lit "F5TTS_v1_Base") 1%float [] 32 2%float ;;
      ret tt) []
  /\ main Sample.env (Sample.single (lit "speaker.wav") (lit "Hi")) [] =
     (clone_voice Sample.env (lit "speaker.wav") (lit "Hi")
        (lit "output.wav") (lit "F5TTS_v1_Base") 1%float [] 32 2%float ;;
      ret tt) [].
Proof.
  split; [|split].
  - apply (proj1 (dispatch_by_truth Sample.env
                    (Sample.defaults (lit "speaker.wav")) []));
      reflexivity.
  - apply (proj1 (proj2 (dispatch_by_truth Sample.env
                           (Sample.batch (lit "speaker.wav")
                              (lit "script.txt")) [])));
      [reflexivity | discriminate].
  - apply (proj2 (proj2 (dispatch_by_truth Sample.env
                           (Sample.single (lit "speaker.wav") (lit "Hi"))
                           [])));
      [reflexivity | reflexivity | discriminate].
Defined.

(** C8, as stated, fails: a text-file path that is supplied but empty does
    not lead to batch mode (the text is cloned in single mode), and a text
    that is supplied but empty, without a text file, does not lead to single
    mode (the usage error is raised). *)
Lemma dispatch_by_presence_fails :
  let a := Namespace.with_text_file
             (Sample.single (lit "speaker.wav") (lit "Hi")) (Some []) in
  let b := Sample.single (lit "speaker.wav") [] in
  (Namespace.text_file a = Some []
   /\ main Sample.env a [] <>
      (clone_voice_batch Sample.env (lit "speaker.wav") []
         (lit "outputs") (lit "F5TTS_v1_Base") 1%float [] 32 2%float ;;
       ret tt) []
   /\ main Sample.env a [] =
      (clone_voice Sample.env (lit "speaker.wav") (lit "Hi")
         (lit "output.wav") (lit "F5TTS_v1_Base") 1%float [] 32 2%float ;;
       ret tt) [])
  /\ (Namespace.text b = Some [] /\ Namespace.text_file b = None
      /\ main Sample.env b [] <>
         (clone_voice Sample.env (lit "speaker.wav") []
            (lit "output.wav") (lit "F5TTS_v1_Base") 1%float [] 32 2%float ;;
          ret tt) []
      /\ fst (main Sample.env b []) = Raise (SystemExit 2)).
Proof.
  cbv zeta. repeat split; try reflexivity.
  - vm_compute. discriminate.
  - vm_compute. discriminate.
Qed.

(** ** The synthesis calls of a run *)

Lemma in_firstn A (k : nat) (l : list A) (x : A) :
  In x (firstn k l) -> In x l.
Proof.
  intros Hin. rewrite <- (firstn_skipn k l). apply in_or_app. now left.
Qed.

(** The only synthesis call of a single run. *)
Lemma clone_voice_calls env ref_audio gen_text output_path model speed
    ref_text nfe_step cfg_strength log tts a :
  In (tts, a)
     (synth_calls (snd (clone_voice env ref_audio gen_text output_path model
                          speed ref_text nfe_step cfg_strength log))) ->
  os_path_exists env log ref_audio = true
  /\ a = {| Infer.ref_file := ref_audio;
            Infer.ref_text := ref_text;
            Infer.gen_text := gen_text;
            Infer.file_wave :=
              PosixPath.abspath (os_getcwd env log) output_path;
            Infer.speed := speed;
            Infer.nfe_step := nfe_step;
            Infer.cfg_strength := cfg_strength |}.
Proof.
  rewrite clone_voice_unfold.
  destruct (os_path_exists env log ref_audio); [|intros []].
  cbv zeta. destruct (F5TTS env _ model) as [h|e]; [|intros []].
  destruct (tts_infer env _ h _) as [res|e].
  - destruct (duration _ _); simpl; intros [Heq|[]]; now inversion Heq.
  - simpl; intros [Heq|[]]; now inversion Heq.
Qed.

(** Every synthesis call of a batch run speaks one non-blank line of the
    source into its own clip, with the arguments of the invocation. *)
Lemma clone_voice_batch_calls env ref_audio text_file output_dir model speed
    ref_text nfe_step cfg_strength log tts a :
  In (tts, a)
     (synth_calls (snd (clone_voice_batch env ref_audio text_file output_dir
                          model speed ref_text nfe_step cfg_strength log))) ->
  exists text i line,
    read_text env log text_file = Ok text
    /\ In line (stripped_nonblank (splitlines text))
    /\ (1 <= i <= length (stripped_nonblank (splitlines text)))%nat
    /\ a = {| Infer.ref_file := ref_audio;
              Infer.ref_text := ref_text;
              Infer.gen_text := line;
              Infer.file_wave :=
                clip_path (PosixPath.abspath (os_getcwd env log) output_dir) i;
              Infer.speed := speed;
              Infer.nfe_step := nfe_step;
              Infer.cfg_strength := cfg_strength |}.
Proof.
  intros Hin.
  destruct (read_text env log text_file) as [text|e] eqn:Hread.
  2:{ unfold clone_voice_batch, bind, try in Hin. rewrite Hread in Hin.
      destruct Hin. }
  destruct (stripped_nonblank (splitlines text)) as [|l0 ls] eqn:El.
  { rewrite (clone_voice_batch_blank _ _ _ _ _ _ _ _ _ _ Hread El) in Hin.
    destruct Hin. }
  assert (Hne : stripped_nonblank (splitlines text) <> []) by congruence.
  destruct (@clone_voice_batch_facts env ref_audio text_file output_dir model
              speed ref_text nfe_step cfg_strength log text _ _ Hread Hne
              (surjective_pairing _))
    as (_ & _ & _ & _ & [k Hk] & _).
  apply (in_map snd) in Hin. rewrite Hk in Hin. apply in_firstn in Hin.
  unfold batch_args in Hin. apply in_map_iff in Hin.
  destruct Hin as ([i line] & Ha & Hil).
  exists text, i, line. repeat split; auto.
  - now apply in_combine_r in Hil.
  - apply in_combine_l, in_seq in Hil. lia.
  - apply in_combine_l, in_seq in Hil. lia.
Qed.

(** The synthesis calls of [main] are those of the mode it dispatches to. *)
Lemma main_calls env args log tts a :
  In (tts, a) (synth_calls (snd (main env args log))) ->
  (exists text_file,
     Namespace.text_file args = Some text_file /\ text_file <> []
     /\ In (tts, a)
          (synth_calls
             (snd (clone_voice_batch env (Namespace.ref_audio args) text_file
                     (Namespace.output_dir args) (Namespace.model args)
                     (Namespace.speed args) (Namespace.ref_text args)
                     (Namespace.nfe_step args) (Namespace.cfg_strength args)
                     log))))
  \/ (truthy (Namespace.text_file args) = false
      /\ exists gen_text,
           Namespace.text args = Some gen_text /\ gen_text <> []
           /\ In (tts, a)
                (synth_calls
                   (snd (clone_voice env (Namespace.ref_audio args) gen_text
                           (Namespace.output args) (Namespace.model args)
                           (Namespace.speed args) (Namespace.ref_text args)
                           (Namespace.nfe_step args)
                           (Namespace.cfg_strength args) log)))).
Proof.
  intros Hin.
  destruct (Namespace.text_file args) as [[|c f]|] eqn:Hf.
  - right. split; [reflexivity|].
    destruct (Namespace.text args) as [[|c t]|] eqn:Ht.
    + rewrite main_usage in Hin by (rewrite ?Ht, ?Hf; reflexivity).
      destruct Hin.
    + rewrite (main_single env args log (gen_text := c :: t)) in Hin
        by (rewrite ?Hf; auto; discriminate).
      rewrite then_ret_tt in Hin. exists (c :: t).
      repeat split; auto. discriminate.
    + rewrite main_usage in Hin by (rewrite ?Ht, ?Hf; reflexivity).
      destruct Hin.
  - left. exists (c :: f).
    rewrite (main_batch env args log (text_file := c :: f)) in Hin
      by (auto; discriminate).
    rewrite then_ret_tt in Hin. repeat split; auto. discriminate.
  - right. split; [reflexivity|].
    destruct (Namespace.text args) as [[|c t]|] eqn:Ht.
    + rewrite main_usage in Hin by (rewrite ?Ht, ?Hf; reflexivity).
      destruct Hin.
    + rewrite (main_single env args log (gen_text := c :: t)) in Hin
        by (rewrite ?Hf; auto; discriminate).
      rewrite then_ret_tt in Hin. exists (c :: t).
      repeat split; auto. discriminate.
    + rewrite main_usage in Hin by (rewrite ?Ht, ?Hf; reflexivity).
      destruct Hin.
Qed.

(** ** The reference transcript *)

(** C9. A non-empty manual transcript reaches the synthesis service
    unchanged: every [infer] call of a single run, of a batch run and of
    [main] carries as [ref_text] exactly the transcript that was given. *)
Theorem transcript_passed_through env ref_text :
  ref_text <> [] ->
  (forall ref_audio gen_text output_path model speed nfe_step cfg_strength
     log tts a,
     In (tts, a)
        (synth_calls (snd (clone_voice env ref_audio gen_text output_path
                             model speed ref_text nfe_step cfg_strength log)))
     -> Infer.ref_text a = ref_text)
  /\ (forall ref_audio text_file output_dir model speed nfe_step cfg_strength
        log tts a,
        In (tts, a)
           (synth_calls (snd (clone_voice_batch env ref_audio text_file
                                output_dir model speed ref_text nfe_step
                                cfg_strength log)))
        -> Infer.ref_text a = ref_text)
  /\ (forall args log tts a,
        Namespace.ref_text args = ref_text ->
        In (tts, a) (synth_calls (snd (main env args log))) ->
        Infer.ref_text a = ref_text).
Proof.
  intros _.
  assert (Hsingle : forall ref_text' ref_audio gen_text output_path model
                      speed nfe_step cfg_strength log tts a,
            In (tts, a)
               (synth_calls (snd (clone_voice env ref_audio gen_text
                                    output_path model speed ref_text'
                                    nfe_step cfg_strength log)))
            -> Infer.ref_text a = ref_text').
  { intros until a. intros Hin. apply clone_voice_calls in Hin.
    destruct Hin as [_ ->]. reflexivity. }
  assert (Hbatch : forall ref_text' ref_audio text_file output_dir model
                     speed nfe_step cfg_strength log tts a,
            In (tts, a)
               (synth_calls (snd (clone_voice_batch env ref_audio text_file
                                    output_dir model speed ref_text' nfe_step
                                    cfg_strength log)))
            -> Infer.ref_text a = ref_text').
  { intros until a. intros Hin. apply clone_voice_batch_calls in Hin.
    destruct Hin as (text & i & line & _ & _ & _ & ->). reflexivity. }
  refine (conj _ (conj _ _)).
  - apply Hsingle.
  - apply Hbatch.
  - intros args log tts a <- Hin. apply main_calls in Hin.
    destruct Hin as [(f & _ & _ & Hin)|(_ & t & _ & _ & Hin)].
    + now apply Hbatch in Hin.
    + now apply Hsingle in Hin.
Qed.

Lemma transcript_passed_through_witness :
  lit "manual transcript" <> []
  /\ map (fun c => Infer.ref_text (snd c))
       (synth_calls
          (snd (main Sample.env
                  {| Namespace.ref_audio := lit "speaker.wav";
                     Namespace.text := Some (lit "Hello");
                     Namespace.text_file := None;
                     Namespace.ref_text := lit "manual transcript";
                     Namespace.output := lit "output.wav";
                     Namespace.output_dir := lit "outputs";
                     Namespace.model := lit "F5TTS_v1_Base";
                     Namespace.speed := 1%float;
                     Namespace.nfe_step := 32;
                     Namespace.cfg_strength := 2%float |} [])))
     = [lit "manual transcript"].
Proof.
  assert (Hne : lit "manual transcript" <> []) by discriminate.
  split; [exact Hne|].
  pose proof (proj2 (proj2 (transcript_passed_through Sample.env Hne)))
    as Hmain.
  match goal with
  | |- map _ (synth_calls (snd (main ?e ?a ?l))) = _ =>
      specialize (Hmain a l);
      destruct (synth_calls (snd (main e a l))) as [|[h c] rest] eqn:Hcalls;
      [vm_compute in Hcalls; discriminate|]
  end.
  assert (Hrest : rest = []) by (vm_compute in Hcalls; now inversion Hcalls).
  subst rest. simpl.
  rewrite (Hmain h c eq_refl (or_introl eq_refl)). reflexivity.
Defined.

(** ** Empty text *)

(** C10. An empty [--text] without a text file is rejected exactly as an
    absent one: same outcome and same effects, namely the usage message and
    exit status 2, with no synthesis call.  Hence the text of a synthesis
    call made in single mode is never empty. *)
Theorem empty_text_rejected env args log :
  Namespace.text args = Some [] ->
  Namespace.text_file args = None ->
  main env args log = main env (Namespace.with_text args None) log
  /\ main env args log =
     (Raise (SystemExit 2), [Usage (lit "Provide either --text or --text_file")])
  /\ exit_status (fst (main env args log)) <> 0
  /\ synth_calls (snd (main env args log)) = []
  /\ (forall args' log' tts a,
        truthy (Namespace.text_file args') = false ->
        In (tts, a) (synth_calls (snd (main env args' log'))) ->
        Infer.gen_text a <> []).
Proof.
  intros Ht Hf.
  assert (Husage : main env args log =
                   (Raise (SystemExit 2),
                    [Usage (lit "Provide either --text or --text_file")])).
  { apply main_usage; [rewrite Ht|rewrite Hf]; reflexivity. }
  refine (conj _ (conj Husage (conj _ (conj _ _)))).
  - rewrite Husage. symmetry. apply main_usage; simpl; [reflexivity|].
    now rewrite Hf.
  - rewrite Husage. simpl. discriminate.
  - now rewrite Husage.
  - intros args' log' tts a Hfalse Hin. apply main_calls in Hin.
    destruct Hin as [(f & Hsome & Hne & _)|(_ & t & _ & Hne & Hin)].
    + rewrite Hsome in Hfalse. destruct f; [congruence|discriminate].
    + apply clone_voice_calls in Hin. destruct Hin as [_ ->]. exact Hne.
Qed.

Lemma empty_text_rejected_witness :
  Namespace.text (Sample.single (lit "speaker.wav") []) = Some []
  /\ Namespace.text_file (Sample.single (lit "speaker.wav") []) = None
  /\ main Sample.env (Sample.single (lit "speaker.wav") []) []
     = main Sample.env (Sample.defaults (lit "speaker.wav")) []
  /\ exit_status (fst (main Sample.env
                         (Sample.single (lit "speaker.wav") []) [])) = 2.
Proof.
  split; [reflexivity|]. split; [reflexivity|].
  destruct (empty_text_rejected Sample.env
              (Sample.single (lit "speaker.wav") []) [] eq_refl eq_refl)
    as (Hsame & Husage & _).
  split; [exact Hsame|]. rewrite Husage. reflexivity.
Defined.

(** ** The reference audio *)

(** In single mode a missing reference is reported before anything else
    happens: [FileNotFoundError], no effect at all, exit status 1. *)
Lemma single_mode_reference_not_found env args log gen_text :
  truthy (Namespace.text_file args) = false ->
  Namespace.text args = Some gen_text -> gen_text <> [] ->
  os_path_exists env log (Namespace.ref_audio args) = false ->
  main env args log =
  (Raise (FileNotFoundError
            (lit "Reference audio not found: " ++ Namespace.ref_audio args)),
   [])
  /\ exit_status (fst (main env args log)) = 1.
Proof.
  intros Hf Ht Hne Hmissing.
  rewrite (main_single env args log Hf Ht Hne), then_ret_tt.
  rewrite clone_voice_unfold, Hmissing. split; reflexivity.
Qed.

(** C1, on the batch path. [clone_voice_batch] never looks at the reference
    audio: with [missing.wav], which does not exist, a source of blank lines
    ends normally with exit status 0, and a source with text creates the
    output directory and loads the model before anything fails; what fails
    then is the synthesis call, not a check of the reference. *)
Theorem batch_skips_reference_check :
  os_path_exists Sample.env [] (lit "missing.wav") = false
  /\ main Sample.env (Sample.batch (lit "missing.wav") (lit "blank.txt")) []
     = (Ok tt, [Print MsgNoLines])
  /\ exit_status
       (fst (main Sample.env
               (Sample.batch (lit "missing.wav") (lit "blank.txt")) [])) = 0
  /\ (let run := main Sample.env
                   (Sample.batch (lit "missing.wav") (lit "script.txt")) [] in
      fst run = Raise (Foreign 1)
      /\ made_dirs (snd run) = [lit "/home/user/outputs"]
      /\ loads (snd run) = [(lit "F5TTS_v1_Base", Ok 7%nat)]
      /\ map (fun c => Infer.ref_file (snd c)) (synth_calls (snd run))
         = [lit "missing.wav"]).
Proof.
  repeat split; vm_compute; reflexivity.
Qed.

(** ** Blank sources *)

Lemma stripped_nonblank_blank (lines : list str) :
  (forall line, In line lines -> strip line = []) ->
  stripped_nonblank lines = [].
Proof.
  induction lines as [|line rest IH]; intros Hall; [reflexivity|].
  simpl. rewrite (Hall line (or_introl eq_refl)).
  apply IH. intros l Hl. apply Hall. now right.
Qed.

(** C2. When every line of the text source is blank or only whitespace (or
    there is no line at all), [clone_voice_batch] reports that there is
    nothing to do and returns the empty list; no directory is created, no
    model is loaded, nothing is synthesised; and [main], run with the path of
    such a source, ends normally: exit status 0. *)
Theorem empty_batch_source env log text_file text :
  read_text env log text_file = Ok text ->
  (forall line, In line (splitlines text) -> strip line = []) ->
  (forall ref_audio output_dir model speed ref_text nfe_step cfg_strength,
     let run := clone_voice_batch env ref_audio text_file output_dir model
                  speed ref_text nfe_step cfg_strength log in
     run = (Ok [], [Print MsgNoLines])
     /\ loads (snd run) = []
     /\ synth_calls (snd run) = []
     /\ made_dirs (snd run) = [])
  /\ (forall args,
        Namespace.text_file args = Some text_file -> text_file <> [] ->
        main env args log = (Ok tt, [Print MsgNoLines])
        /\ exit_status (fst (main env args log)) = 0).
Proof.
  intros Hread Hblank. apply stripped_nonblank_blank in Hblank. split.
  - intros ref_audio output_dir model speed ref_text nfe_step cfg_strength
      run.
    assert (Hrun : run = (Ok [], [Print MsgNoLines]))
      by (apply (clone_voice_batch_blank _ _ _ _ _ _ _ _ _ _ Hread Hblank)).
    rewrite Hrun. repeat split.
  - intros args Hf Hne.
    rewrite (main_batch env args log Hf Hne), then_ret_tt.
    rewrite (clone_voice_batch_blank _ _ _ _ _ _ _ _ _ _ Hread Hblank).
    split; reflexivity.
Qed.

Lemma all_blank (lines : list str) :
  forallb (fun line => PyStr.eqb (strip line) []) lines = true ->
  forall line, In line lines -> strip line = [].
Proof.
  intros Hall line Hin. rewrite forallb_forall in Hall.
  specialize (Hall line Hin). cbv beta in Hall. unfold PyStr.eqb in Hall.
  destruct (list_eq_dec _ _ _); [assumption|discriminate].
Defined.

Lemma empty_batch_source_witness :
  read_text Sample.env [] (lit "blank.txt") = Ok Sample.blank
  /\ (forall line, In line (splitlines Sample.blank) -> strip line = [])
  /\ main Sample.env (Sample.batch (lit "speaker.wav") (lit "blank.txt")) []
     = (Ok tt, [Print MsgNoLines]).
Proof.
  assert (Hblank : forall line,
             In line (splitlines Sample.blank) -> strip line = [])
    by (apply all_blank; vm_compute; reflexivity).
  split; [reflexivity|]. split; [exact Hblank|].
  apply (proj2 (empty_batch_source Sample.env [] (lit "blank.txt")
                  (text := Sample.blank) eq_refl Hblank)
           (Sample.batch (lit "speaker.wav") (lit "blank.txt")) eq_refl).
  discriminate.
Defined.

(** ** The lines of a batch *)

Lemma stripped_nonblank_spec (lines : list str) :
  stripped_nonblank lines = trimmed_nonempty lines.
Proof.
  unfold trimmed_nonempty.
  induction lines as [|line rest IH]; [reflexivity|]. simpl.
  destruct (strip line) as [|c s] eqn:Hs; simpl; now rewrite IH.
Qed.

Lemma batch_args_texts ref_audio ref_text dir speed nfe_step cfg_strength
    (lines : list str) : forall s,
  map Infer.gen_text
      (batch_args ref_audio ref_text dir speed nfe_step cfg_strength s lines)
  = lines.
Proof.
  unfold batch_args.
  induction lines as [|line rest IH]; intros s; [reflexivity|].
  simpl. now rewrite IH.
Qed.

Lemma map_firstn A B (f : A -> B) (k : nat) (l : list A) :
  map f (firstn k l) = firstn k (map f l).
Proof.
  revert l. induction k as [|k IH]; intros [|x l]; simpl; auto.
  now rewrite IH.
Qed.

(** C4. The batch job is exactly the lines of the source, each trimmed of
    whitespace, the empty ones dropped, in their original order; the lines
    [""], ["  "], ["Hello"], ["World"], [""] give the two utterances
    ["Hello"] and ["World"]; and the texts a batch run synthesises are, in
    order, an initial segment of that job, all of it when the run returns, so
    that a blank line never gets an output file. *)
Theorem batch_lines_trimmed_nonempty :
  (forall lines, stripped_nonblank lines = trimmed_nonempty lines)
  /\ stripped_nonblank [[]; lit "  "; lit "Hello"; lit "World"; []]
     = [lit "Hello"; lit "World"]
  /\ (forall env ref_audio text_file output_dir model speed ref_text nfe_step
        cfg_strength log text,
        read_text env log text_file = Ok text ->
        let job := trimmed_nonempty (splitlines text) in
        let run := clone_voice_batch env ref_audio text_file output_dir model
                     speed ref_text nfe_step cfg_strength log in
        (exists k, map fst (synthesised (snd run)) = firstn k job)
        /\ (forall outs, fst run = Ok outs ->
              map fst (synthesised (snd run)) = job
              /\ length outs = length job)).
Proof.
  refine (conj stripped_nonblank_spec (conj eq_refl _)).
  intros env ref_audio text_file output_dir model speed ref_text nfe_step
    cfg_strength log text Hread job run.
  assert (Htexts : forall es,
             map fst (synthesised es)
             = map Infer.gen_text (map snd (synth_calls es))).
  { intros es. unfold synthesised. now rewrite !map_map. }
  subst job. rewrite <- stripped_nonblank_spec.
  destruct (stripped_nonblank (splitlines text)) as [|l0 ls] eqn:El.
  - subst run.
    rewrite (clone_voice_batch_blank _ _ _ _ _ _ _ _ _ _ Hread El). simpl.
    split; [now exists 0%nat|]. intros outs Houts. now inversion Houts.
  - assert (Hne : stripped_nonblank (splitlines text) <> []) by congruence.
    destruct (@clone_voice_batch_facts env ref_audio text_file output_dir
                model speed ref_text nfe_step cfg_strength log text _ _ Hread
                Hne (surjective_pairing _))
      as (_ & _ & _ & _ & [k Hk] & Hret).
    fold run in Hk, Hret. rewrite El in Hk, Hret. rewrite Htexts. split.
    + exists k. now rewrite Hk, map_firstn, batch_args_texts.
    + intros outs Houts. destruct (Hret outs Houts) as [-> Hall].
      rewrite Hall, batch_args_texts. split; [reflexivity|].
      now rewrite length_map, length_seq.
Qed.

Lemma batch_lines_trimmed_nonempty_witness :
  read_text Sample.env [] (lit "script.txt") = Ok Sample.script
  /\ splitlines Sample.script = [[]; lit "  "; lit "Hello"; lit "World"; []]
  /\ trimmed_nonempty (splitlines Sample.script) = [lit "Hello"; lit "World"]
  /\ map fst
       (synthesised
          (snd (clone_voice_batch Sample.env (lit "speaker.wav")
                  (lit "script.txt") (lit "outputs") (lit "F5TTS_v1_Base")
                  1%float [] 32 2%float [])))
     = [lit "Hello"; lit "World"].
Proof.
  split; [reflexivity|]. split; [reflexivity|]. split; [reflexivity|].
  destruct batch_lines_trimmed_nonempty as (_ & _ & Hrun).
  destruct (Hrun Sample.env (lit "speaker.wav") (lit "script.txt")
              (lit "outputs") (lit "F5TTS_v1_Base") 1%float [] 32 2%float
              [] Sample.script eq_refl) as [_ Hall].
  apply (Hall [lit "/home/user/outputs/clip_001.wav";
               lit "/home/user/outputs/clip_002.wav"]).
  reflexivity.
Defined.

(** ** Path resolution *)

Section Normpath.

Import PosixPath.

Lemma eqb_eq (a b : str) : PyStr.eqb a b = true <-> a = b.
Proof.
  unfold PyStr.eqb. destruct (list_eq_dec _ _ _); split; congruence.
Qed.

Lemma eqb_neq (a b : str) : PyStr.eqb a b = false <-> a <> b.
Proof.
  unfold PyStr.eqb. destruct (list_eq_dec _ _ _); split; congruence.
Qed.

(** Absolute means: the first character is a slash. *)
Lemma isabs_cons (p : str) : isabs p = true <-> exists q, p = sep :: q.
Proof.
  unfold isabs. destruct p as [|c q].
  - split; [discriminate|]. intros [q Hq]. discriminate.
  - change (startswith (c :: q) [sep]) with ((sep =? c)%N && true).
    rewrite andb_true_r. split.
    + intros Hc. apply N.eqb_eq in Hc. subst c. now exists q.
    + intros [q' Hq]. inversion Hq. reflexivity.
Qed.

Lemma join_isabs (a b : str) : isabs a = true -> isabs (join a b) = true.
Proof.
  intros Ha. unfold join.
  destruct (startswith b [sep]) eqn:Hb; [exact Hb|].
  apply isabs_cons in Ha. destruct Ha as [q ->].
  destruct (_ || _); apply isabs_cons; simpl; eauto.
Qed.

(** *** Splitting and joining *)

Lemma split_from_nosep (c : str) : forall cur s,
  ~ In sep c ->
  split_from sep cur (c ++ s) = split_from sep (rev c ++ cur) s.
Proof.
  induction c as [|x c IH]; intros cur s Hc; [reflexivity|].
  simpl. destruct (N.eqb_spec x sep) as [->|Hx].
  - exfalso. apply Hc. now left.
  - rewrite IH by (intros Hin; apply Hc; now right).
    now rewrite <- app_assoc.
Qed.

Lemma split_join (cs : list str) :
  Forall (fun c => ~ In sep c) cs -> cs <> [] ->
  split sep (PyStr.join [sep] cs) = cs.
Proof.
  unfold split. induction 1 as [|c cs Hc Hcs IH]; intros Hne; [now elim Hne|].
  destruct cs as [|c' cs'].
  - simpl. rewrite <- (app_nil_r c) at 1.
    rewrite split_from_nosep by assumption. simpl.
    now rewrite app_nil_r, rev_involutive.
  - change (PyStr.join [sep] (c :: c' :: cs'))
      with (c ++ [sep] ++ PyStr.join [sep] (c' :: cs')).
    rewrite split_from_nosep by assumption.
    cbn [app split_from].
    rewrite N.eqb_refl, app_nil_r, rev_involutive. f_equal.
    apply IH. discriminate.
Qed.

Lemma split_from_pieces (s : str) : forall cur,
  ~ In sep cur ->
  Forall (fun c => ~ In sep c) (split_from sep cur s).
Proof.
  induction s as [|x s IH]; intros cur Hcur; simpl.
  - constructor; [|constructor]. now rewrite <- in_rev.
  - destruct (N.eqb_spec x sep) as [->|Hx].
    + constructor; [now rewrite <- in_rev|]. apply IH. intros [].
    + apply IH. intros [Heq|Hin]; [congruence|auto].
Qed.

(** *** The loop of [normpath] on an absolute path *)

Lemma step_clean (k : nat) (acc : list str) (comp : str) :
  clean comp -> normpath_step k acc comp = acc ++ [comp].
Proof.
  intros (Hne & _ & Hdot & Hdotdot). unfold normpath_step.
  apply eqb_neq in Hne, Hdot, Hdotdot. now rewrite Hne, Hdot, Hdotdot.
Qed.

Lemma fold_clean (k : nat) (cs : list str) : forall acc,
  Forall clean cs -> fold_left (normpath_step k) cs acc = acc ++ cs.
Proof.
  induction cs as [|c cs IH]; intros acc Hcs; simpl.
  - now rewrite app_nil_r.
  - inversion Hcs; subst. rewrite step_clean by assumption.
    rewrite IH by assumption. now rewrite <- app_assoc.
Qed.

Lemma Forall_removelast A (P : A -> Prop) (l : list A) :
  Forall P l -> Forall P (removelast l).
Proof.
  intros Hl. destruct l as [|x l]; [constructor|].
  destruct (@exists_last _ (x :: l)) as (l' & a & Heq); [discriminate|].
  rewrite Heq in *. rewrite removelast_last.
  apply Forall_app in Hl. tauto.
Qed.

Lemma step_keeps_clean (k : nat) (acc : list str) (comp : str) :
  (1 <= k)%nat -> Forall clean acc -> ~ In sep comp ->
  Forall clean (normpath_step k acc comp).
Proof.
  intros Hk Hacc Hsep. unfold normpath_step.
  destruct (PyStr.eqb comp []) eqn:Hnil; [assumption|].
  destruct (PyStr.eqb comp dot) eqn:Hdot; [assumption|]. cbn [orb].
  destruct (PyStr.eqb comp dotdot) eqn:Hdd; cbn [negb orb].
  - destruct k as [|k]; [lia|]. cbn [Nat.eqb andb orb].
    destruct acc as [|x acc]; [constructor|].
    destruct (@exists_last _ (x :: acc)) as (l' & a & Heq); [discriminate|].
    rewrite Heq in *. rewrite last_last, removelast_last.
    apply Forall_app in Hacc. destruct Hacc as [Hl' Ha].
    inversion Ha as [|? ? (_ & _ & _ & Hadd) _]; subst.
    apply eqb_neq in Hadd. now rewrite Hadd.
  - apply Forall_app. split; [assumption|]. constructor; [|constructor].
    apply eqb_neq in Hnil, Hdot, Hdd. repeat split; assumption.
Qed.

Lemma fold_keeps_clean (k : nat) (comps : list str) : forall acc,
  (1 <= k)%nat -> Forall clean acc ->
  Forall (fun c => ~ In sep c) comps ->
  Forall clean (fold_left (normpath_step k) comps acc).
Proof.
  induction comps as [|c comps IH]; intros acc Hk Hacc Hcomps; simpl.
  - assumption.
  - inversion Hcomps; subst. apply IH; auto.
    now apply step_keeps_clean.
Qed.

(** *** Normal forms *)

Lemma startswith_cons (x y : char) (s p : str) :
  startswith (y :: s) (x :: p) = (x =? y)%N && startswith s p.
Proof. reflexivity. Qed.

Lemma startswith_nil (s : str) : startswith s [] = true.
Proof. reflexivity. Qed.

Lemma join_head (cs : list str) :
  Forall clean cs -> startswith (PyStr.join [sep] cs) [sep] = false.
Proof.
  intros Hcs. destruct Hcs as [|c cs (Hne & Hsep & _) _]; [reflexivity|].
  destruct c as [|x c]; [congruence|].
  assert (Hx : (sep =? x)%N = false).
  { apply N.eqb_neq. intros <-. apply Hsep. now left. }
  destruct cs; cbn [PyStr.join app startswith]; now rewrite Hx.
Qed.

Lemma normal_form_slashes (k : nat) (cs : list str) :
  k = 1%nat \/ k = 2%nat -> Forall clean cs ->
  initial_slashes (normal_form k cs) = k.
Proof.
  intros Hk Hcs. pose proof (join_head Hcs) as Hhead.
  unfold initial_slashes, normal_form.
  destruct Hk as [-> | ->]; cbn [repeat app];
    repeat rewrite startswith_cons;
    rewrite ?startswith_nil, ?N.eqb_refl, ?Hhead; reflexivity.
Qed.

Lemma normal_form_isabs (k : nat) (cs : list str) :
  k = 1%nat \/ k = 2%nat -> isabs (normal_form k cs) = true.
Proof.
  intros [-> | ->]; apply isabs_cons; unfold normal_form; simpl; eauto.
Qed.

Lemma fold_skips_empty (k n : nat) (comps : list str) :
  fold_left (normpath_step k) (repeat [] n ++ comps) []
  = fold_left (normpath_step k) comps [].
Proof.
  induction n as [|n IH]; [reflexivity|]. simpl. exact IH.
Qed.

Lemma normpath_nonempty (path : str) :
  path <> [] ->
  normpath path =
  match repeat sep (initial_slashes path)
        ++ PyStr.join [sep]
             (fold_left (normpath_step (initial_slashes path))
                (split sep path) []) with
  | [] => dot
  | c :: p => c :: p
  end.
Proof. destruct path; [congruence|reflexivity]. Qed.

(** [normpath] leaves a normal form as it is. *)
Lemma normpath_normal_form (k : nat) (cs : list str) :
  k = 1%nat \/ k = 2%nat -> Forall clean cs ->
  normpath (normal_form k cs) = normal_form k cs.
Proof.
  intros Hk Hcs.
  assert (Hsplit : split sep (normal_form k cs)
                   = repeat [] k ++ split sep (PyStr.join [sep] cs)).
  { unfold normal_form, split.
    destruct Hk as [-> | ->]; cbn [repeat app split_from];
      rewrite !N.eqb_refl; reflexivity. }
  assert (Hfold : fold_left (normpath_step k)
                    (split sep (PyStr.join [sep] cs)) [] = cs).
  { destruct cs as [|c cs']; [reflexivity|].
    rewrite split_join.
    - now rewrite fold_clean.
    - eapply Forall_impl; [|exact Hcs]. intros a (_ & Ha & _). exact Ha.
    - discriminate. }
  assert (Hne : normal_form k cs <> []).
  { unfold normal_form. destruct Hk as [-> | ->]; discriminate. }
  rewrite (normpath_nonempty Hne).
  rewrite (normal_form_slashes Hk Hcs), Hsplit, fold_skips_empty, Hfold.
  fold (normal_form k cs). now destruct (normal_form k cs).
Qed.

(** [normpath] brings every absolute path to a normal form. *)
Lemma normpath_absolute (p : str) :
  isabs p = true ->
  exists k cs, (k = 1%nat \/ k = 2%nat) /\ Forall clean cs
               /\ normpath p = normal_form k cs.
Proof.
  intros Habs. apply isabs_cons in Habs. destruct Habs as [q ->].
  assert (Hk : initial_slashes (sep :: q) = 1%nat
               \/ initial_slashes (sep :: q) = 2%nat).
  { unfold initial_slashes.
    rewrite (startswith_cons sep sep q []), N.eqb_refl, startswith_nil.
    cbn [andb]. destruct (_ && _); auto. }
  exists (initial_slashes (sep :: q)),
         (fold_left (normpath_step (initial_slashes (sep :: q)))
            (split sep (sep :: q)) []).
  split; [exact Hk|]. split.
  - apply fold_keeps_clean.
    + destruct Hk as [-> | ->]; lia.
    + constructor.
    + apply split_from_pieces. intros [].
  - rewrite normpath_nonempty by discriminate. unfold normal_form.
    destruct Hk as [-> | ->]; reflexivity.
Qed.

(** Resolution yields an absolute path in normal form. *)
Lemma abspath_normal (cwd p : str) :
  isabs cwd = true ->
  exists k cs, (k = 1%nat \/ k = 2%nat) /\ Forall clean cs
               /\ abspath cwd p = normal_form k cs.
Proof.
  intros Hcwd. unfold abspath. apply normpath_absolute.
  destruct (isabs p) eqn:Hp; [exact Hp|]. now apply join_isabs.
Qed.

Lemma abspath_normal_form (cwd : str) (k : nat) (cs : list str) :
  k = 1%nat \/ k = 2%nat -> Forall clean cs ->
  abspath cwd (normal_form k cs) = normal_form k cs.
Proof.
  intros Hk Hcs. unfold abspath. rewrite (normal_form_isabs cs Hk).
  now apply normpath_normal_form.
Qed.

End Normpath.

(** The path a single run returns is the resolved output path. *)
Lemma clone_voice_result env ref_audio gen_text output_path model speed
    ref_text nfe_step cfg_strength log out :
  fst (clone_voice env ref_audio gen_text output_path model speed ref_text
         nfe_step cfg_strength log) = Ok out ->
  out = PosixPath.abspath (os_getcwd env log) output_path.
Proof.
  rewrite clone_voice_unfold.
  destruct (os_path_exists env log ref_audio); [|discriminate].
  cbv zeta. destruct (F5TTS env _ model) as [h|e]; [|discriminate].
  destruct (tts_infer env _ h _) as [res|e]; [|discriminate].
  destruct (duration _ _); [|discriminate].
  simpl. now inversion 1.
Qed.

(** C7, as the code has it. [os.path.abspath] also normalises, so resolution
    is idempotent in this sense: its result is an absolute path in normal
    form, and resolving such a path again, from any working directory,
    returns it unchanged.  The output path is resolved against the working
    directory of the moment the function is entered, before the model is
    loaded and before any synthesis call: every [file_wave] a single run
    passes to [infer], and the path it returns, is that resolved path, and
    every [file_wave] of a batch run is a clip under the output directory
    resolved at that moment; all of them are absolute, whatever the working
    directory becomes afterwards. *)
Theorem output_path_resolution :
  (forall cwd cwd' path,
     PosixPath.isabs cwd = true ->
     PosixPath.isabs (PosixPath.abspath cwd path) = true
     /\ PosixPath.abspath cwd' (PosixPath.abspath cwd path)
        = PosixPath.abspath cwd path)
  /\ (forall cwd k comps,
        k = 1%nat \/ k = 2%nat -> Forall clean comps ->
        PosixPath.abspath cwd (normal_form k comps) = normal_form k comps)
  /\ (forall env ref_audio gen_text output_path model speed ref_text nfe_step
        cfg_strength log,
        let run := clone_voice env ref_audio gen_text output_path model speed
                     ref_text nfe_step cfg_strength log in
        let resolved := PosixPath.abspath (os_getcwd env log) output_path in
        (forall tts a, In (tts, a) (synth_calls (snd run)) ->
           Infer.file_wave a = resolved)
        /\ (forall out, fst run = Ok out -> out = resolved)
        /\ PosixPath.isabs resolved = true)
  /\ (forall env ref_audio text_file output_dir model speed ref_text nfe_step
        cfg_strength log,
        let run := clone_voice_batch env ref_audio text_file output_dir model
                     speed ref_text nfe_step cfg_strength log in
        let resolved := PosixPath.abspath (os_getcwd env log) output_dir in
        forall tts a, In (tts, a) (synth_calls (snd run)) ->
          (exists i, Infer.file_wave a = clip_path resolved i)
          /\ PosixPath.isabs (Infer.file_wave a) = true).
Proof.
  assert (Habs : forall cwd path,
             PosixPath.isabs cwd = true ->
             PosixPath.isabs (PosixPath.abspath cwd path) = true).
  { intros cwd path Hcwd.
    destruct (@abspath_normal cwd path Hcwd) as (k & cs & Hk & _ & ->).
    now apply normal_form_isabs. }
  refine (conj _ (conj _ (conj _ _))).
  - intros cwd cwd' path Hcwd. split; [now apply Habs|].
    destruct (@abspath_normal cwd path Hcwd) as (k & cs & Hk & Hcs & ->).
    now apply abspath_normal_form.
  - intros cwd k comps. apply abspath_normal_form.
  - intros env ref_audio gen_text output_path model speed ref_text nfe_step
      cfg_strength log run resolved.
    refine (conj _ (conj _ _)).
    + intros tts a Hin. apply clone_voice_calls in Hin.
      destruct Hin as [_ ->]. reflexivity.
    + intros out. apply clone_voice_result.
    + apply Habs, os_getcwd_isabs.
  - intros env ref_audio text_file output_dir model speed ref_text nfe_step
      cfg_strength log run resolved tts a Hin.
    apply clone_voice_batch_calls in Hin.
    destruct Hin as (text & i & line & _ & _ & _ & ->). cbn [Infer.file_wave].
    split; [now exists i|].
    apply join_isabs, Habs, os_getcwd_isabs.
Qed.

Lemma output_path_resolution_witness :
  PosixPath.isabs (lit "/home/user") = true
  /\ PosixPath.abspath (lit "/models")
       (PosixPath.abspath (lit "/home/user") (lit "out/../x//clip.wav"))
     = lit "/home/user/x/clip.wav"
  /\ Forall clean [lit "tmp"; lit "out.wav"]
  /\ PosixPath.abspath (lit "/home/user") (lit "/tmp/out.wav")
     = lit "/tmp/out.wav"
  /\ map (fun c => Infer.file_wave (snd c))
       (synth_calls
          (snd (clone_voice Sample.env (lit "speaker.wav") (lit "Hi")
                  (lit "output.wav") (lit "F5TTS_v1_Base") 1%float [] 32
                  2%float [])))
     = [lit "/home/user/output.wav"]
  /\ Sample.cwd
       (snd (clone_voice Sample.env (lit "speaker.wav") (lit "Hi")
               (lit "output.wav") (lit "F5TTS_v1_Base") 1%float [] 32
               2%float []))
     = lit "/models".
Proof.
  destruct output_path_resolution as (Hidem & Hnormal & Hsingle & _).
  assert (Hclean : Forall clean [lit "tmp"; lit "out.wav"]).
  { repeat constructor; try discriminate;
      intros Hin; vm_compute in Hin; intuition discriminate. }
  split; [reflexivity|]. split; [|split; [exact Hclean|split; [|split]]].
  - rewrite (proj2 (Hidem (lit "/home/user") (lit "/models")
                      (lit "out/../x//clip.wav") eq_refl)).
    reflexivity.
  - exact (Hnormal (lit "/home/user") 1%nat [lit "tmp"; lit "out.wav"]
             (or_introl eq_refl) Hclean).
  - destruct (Hsingle Sample.env (lit "speaker.wav") (lit "Hi")
                (lit "output.wav") (lit "F5TTS_v1_Base") 1%float [] 32
                2%float []) as (Hcalls & _ & _).
    match goal with
    | |- map _ (synth_calls ?es) = _ =>
        destruct (synth_calls es) as [|[h c] rest] eqn:E;
        [vm_compute in E; discriminate|]
    end.
    assert (Hrest : rest = []) by (vm_compute in E; now inversion E).
    subst rest. simpl. rewrite (Hcalls h c (or_introl eq_refl)).
    reflexivity.
  - reflexivity.
Defined.

(** C7, as stated, fails: an absolute output path that is not in normal form
    is not returned unchanged. *)
Lemma abspath_absolute_not_unchanged :
  PosixPath.isabs (lit "/tmp/../out.wav") = true
  /\ PosixPath.abspath (lit "/home/user") (lit "/tmp/../out.wav")
     = lit "/out.wav"
  /\ PosixPath.abspath (lit "/home/user") (lit "/tmp/../out.wav")
     <> lit "/tmp/../out.wav"
  /\ fst (clone_voice Sample.env (lit "speaker.wav") (lit "Hi")
            (lit "/tmp/../out.wav") (lit "F5TTS_v1_Base") 1%float [] 32
            2%float [])
     = Ok (lit "/out.wav").
Proof.
  repeat split; try reflexivity. vm_compute. discriminate.
Qed.

(** * Further properties of the script *)

(** ** How a batch run ends *)

Section BatchEnd.

Variable env : Env.
Variables (tts : handle) (ref_audio ref_text dir : str).
Variables (speed : float) (nfe_step : Z) (cfg_strength : float) (n : Z).

Let loop := batch_loop env tts ref_audio ref_text dir speed nfe_step
              cfg_strength n.

(** A loop that raises stops at the synthesis call that raised. *)
Lemma batch_loop_raises lines : forall i outputs log e es,
  loop i lines outputs log = (Raise e, es) ->
  exists es' a,
    es = es' ++ [Synth tts a] /\ tts_infer env (log ++ es') tts a = Raise e.
Proof.
  induction lines as [|line rest IH]; intros i outputs log e es Hrun.
  - discriminate.
  - unfold loop in Hrun. rewrite batch_loop_cons in Hrun. cbv zeta in Hrun.
    match type of Hrun with
    | context [tts_infer env ?lg tts ?a] =>
        destruct (tts_infer env lg tts a) as [res|e'] eqn:Hinfer
    end.
    + match type of Hrun with
      | context [batch_loop env tts ?a ?b ?c ?d ?f ?g ?h ?j ?l ?o ?lg] =>
          destruct (batch_loop env tts a b c d f g h j l o lg) as [r es0]
            eqn:Hrest
      end.
      inversion Hrun; subst; clear Hrun.
      apply IH in Hrest. destruct Hrest as (es' & a & -> & Hraise).
      eexists (_ :: _ :: es'), a. split; [reflexivity|].
      rewrite <- Hraise. f_equal. now rewrite <- !app_assoc.
    + inversion Hrun; subst; clear Hrun.
      eexists [_], _. split; [reflexivity|]. exact Hinfer.
Qed.

(** A loop that returns has performed, for every line in order, the progress
    message and the synthesis call. *)
Lemma batch_loop_trace lines : forall s outputs log outs es,
  loop (Z.of_nat s) lines outputs log = (Ok outs, es) ->
  es = batch_items tts ref_audio ref_text dir speed nfe_step cfg_strength n s
         lines.
Proof.
  induction lines as [|line rest IH]; intros s outputs log outs es Hrun.
  - now inversion Hrun.
  - unfold loop in Hrun. rewrite batch_loop_cons in Hrun. cbv zeta in Hrun.
    destruct (tts_infer env _ tts _) as [res|e'] in Hrun; [|discriminate].
    replace (Z.of_nat s + 1) with (Z.of_nat (S s)) in Hrun by lia.
    match type of Hrun with
    | context [batch_loop env tts ?a ?b ?c ?d ?f ?g ?h ?j ?l ?o ?lg] =>
        destruct (batch_loop env tts a b c d f g h j l o lg) as [r es0]
          eqn:Hrest
    end.
    inversion Hrun; subst; clear Hrun.
    apply IH in Hrest. subst es0. reflexivity.
Qed.

End BatchEnd.

Section BatchLoopEvents.

Variable env : Env.
Variables (tts : handle) (ref_audio ref_text dir : str).
Variables (speed : float) (nfe_step : Z) (cfg_strength : float) (n : Z).

(** Whatever its outcome, the loop only prints progress messages, each for
    one of its lines and with that line's index, and calls the synthesis. *)
Lemma batch_loop_events lines : forall i outputs log ev,
  In ev (snd (batch_loop env tts ref_audio ref_text dir speed nfe_step
                cfg_strength n i lines outputs log)) ->
  (exists j line,
     In line lines /\ i <= j < i + len lines
     /\ ev = Print (MsgBatchItem j n (label line)))
  \/ (exists a, ev = Synth tts a).
Proof.
  induction lines as [|line rest IH]; intros i outputs log ev Hin.
  - destruct Hin.
  - assert (Hlen : len (line :: rest) = len rest + 1)
      by (unfold len; simpl length; lia).
    assert (Hpos : 0 <= len rest) by (unfold len; lia).
    rewrite batch_loop_cons in Hin. cbv zeta in Hin.
    destruct (tts_infer env _ tts _) as [res|e'] in Hin.
    + match type of Hin with
      | context [batch_loop env tts ?a ?b ?c ?d ?f ?g ?h ?j ?l ?o ?lg] =>
          specialize (IH j o lg ev);
          destruct (batch_loop env tts a b c d f g h j l o lg) as [r es0]
      end.
      destruct Hin as [<-|[<-|Hin]].
      * left. exists i, line. repeat split; [now left|lia|lia].
      * right. eauto.
      * destruct (IH Hin) as [(j & l & Hl & Hj & ->)|Hs]; [|now right].
        left. exists j, l. repeat split; [now right|lia|lia].
    + destruct Hin as [<-|[<-|[]]].
      * left. exists i, line. repeat split; [now left|lia|lia].
      * right. eauto.
Qed.

End BatchLoopEvents.

(** X1. A batch run that returns has done, in this order and nothing else: create
    the output directory, announce and perform the one model load, announce
    the number of clips, then for every non-blank line in input order print
    its progress line and synthesise it into its clip, and last report the
    number of files, which is the number of non-blank lines. *)
Theorem batch_run_trace env ref_audio text_file output_dir model speed
    ref_text nfe_step cfg_strength log text outs es :
  read_text env log text_file = Ok text ->
  let lines := stripped_nonblank (splitlines text) in
  lines <> [] ->
  let dir := PosixPath.abspath (os_getcwd env log) output_dir in
  clone_voice_batch env ref_audio text_file output_dir model speed ref_text
    nfe_step cfg_strength log = (Ok outs, es) ->
  exists tts,
    F5TTS env (log ++ [Makedirs dir; Print (MsgLoading model)]) model = Ok tts
    /\ es = [Makedirs dir; Print (MsgLoading model); Load model (Ok tts);
             Print (MsgBatchStart (len lines))]
            ++ batch_items tts ref_audio ref_text dir speed nfe_step
                 cfg_strength (len lines) 1 lines
            ++ [Print (MsgBatchDone (len lines) dir)]
    /\ len outs = len lines.
Proof.
  intros Hread lines Hne dir Hrun.
  pose proof Hrun as Hfacts.
  apply (@clone_voice_batch_facts env ref_audio text_file output_dir model
           speed ref_text nfe_step cfg_strength log text _ _ Hread Hne)
    in Hfacts.
  destruct Hfacts as (_ & _ & _ & _ & _ & Hret).
  destruct (Hret outs eq_refl) as [Houts _].
  assert (Hlen : len outs = len lines).
  { unfold len. rewrite Houts, length_map, length_seq. reflexivity. }
  rewrite (clone_voice_batch_unfold _ _ _ _ _ _ _ _ _ _ Hread Hne) in Hrun.
  cbv zeta in Hrun. fold lines dir in Hrun.
  destruct (os_makedirs env log dir); [|discriminate].
  destruct (F5TTS env _ model) as [tts|e] eqn:Hload; [|discriminate].
  exists tts. split; [reflexivity|].
  change 1 with (Z.of_nat 1) in Hrun.
  destruct (batch_loop _ _ _ _ _ _ _ _ _ _ _ _ _) as [[outs'|e] es'] eqn:Hloop;
    [|discriminate].
  apply batch_loop_trace in Hloop. inversion Hrun; subst outs' es.
  split; [|exact Hlen]. rewrite Hlen, Hloop. reflexivity.
Qed.

Lemma batch_run_trace_witness :
  read_text Sample.env [] (lit "script.txt") = Ok Sample.script
  /\ stripped_nonblank (splitlines Sample.script) <> []
  /\ exists outs es,
       clone_voice_batch Sample.env (lit "speaker.wav") (lit "script.txt")
         (lit "outputs") (lit "F5TTS_v1_Base") 1%float [] 32 2%float []
       = (Ok outs, es)
       /\ es = [Makedirs (lit "/home/user/outputs");
                Print (MsgLoading (lit "F5TTS_v1_Base"));
                Load (lit "F5TTS_v1_Base") (Ok 7%nat);
                Print (MsgBatchStart 2)]
               ++ batch_items 7%nat (lit "speaker.wav") []
                    (lit "/home/user/outputs") 1%float 32 2%float 2 1
                    [lit "Hello"; lit "World"]
               ++ [Print (MsgBatchDone 2 (lit "/home/user/outputs"))].
Proof.
  assert (Hne : stripped_nonblank (splitlines Sample.script) <> [])
    by (vm_compute; discriminate).
  split; [reflexivity|]. split; [exact Hne|].
  destruct (clone_voice_batch Sample.env (lit "speaker.wav")
              (lit "script.txt") (lit "outputs") (lit "F5TTS_v1_Base")
              1%float [] 32 2%float []) as [[outs|e] es] eqn:Hrun;
    [|vm_compute in Hrun; discriminate].
  exists outs, es. split; [reflexivity|].
  destruct (batch_run_trace Sample.env (lit "speaker.wav") (lit "script.txt")
              (lit "outputs") (lit "F5TTS_v1_Base") 1%float [] 32 2%float []
              (text := Sample.script) eq_refl Hne Hrun)
    as (tts & Hload & Hes & _).
  vm_compute in Hload. inversion Hload; subst tts. exact Hes.
Defined.

(** X2. A batch run raises nothing of its own.  When it ends with an exception,
    that is the exception of reading the text file (nothing has happened
    yet), of creating the output directory, of loading the model, or of a
    synthesis call; the call that raised is the last effect of the run, so no
    later line is synthesised, and the closing report is not printed. *)
Theorem batch_run_failure env ref_audio text_file output_dir model speed
    ref_text nfe_step cfg_strength log e es :
  clone_voice_batch env ref_audio text_file output_dir model speed ref_text
    nfe_step cfg_strength log = (Raise e, es) ->
  let dir := PosixPath.abspath (os_getcwd env log) output_dir in
  ((read_text env log text_file = Raise e /\ es = [])
   \/ (os_makedirs env log dir = Raise e /\ es = [Makedirs dir])
   \/ (F5TTS env (log ++ [Makedirs dir; Print (MsgLoading model)]) model
       = Raise e
       /\ es = [Makedirs dir; Print (MsgLoading model);
                Load model (Raise e)])
   \/ (exists es' tts a,
         es = es' ++ [Synth tts a]
         /\ tts_infer env (log ++ es') tts a = Raise e))
  /\ (forall k d, ~ In (Print (MsgBatchDone k d)) es).
Proof.
  intros Hrun dir.
  destruct (read_text env log text_file) as [text|e0] eqn:Hread.
  2:{ unfold clone_voice_batch, bind, try in Hrun. rewrite Hread in Hrun.
      inversion Hrun; subst. split; [now left|]. intros k d []. }
  destruct (stripped_nonblank (splitlines text)) as [|l0 ls] eqn:El.
  { rewrite (clone_voice_batch_blank _ _ _ _ _ _ _ _ _ _ Hread El) in Hrun.
    discriminate. }
  assert (Hne : stripped_nonblank (splitlines text) <> []) by congruence.
  rewrite (clone_voice_batch_unfold _ _ _ _ _ _ _ _ _ _ Hread Hne) in Hrun.
  cbv zeta in Hrun. fold dir in Hrun.
  destruct (os_makedirs env log dir) as [u|e1] eqn:Hmk.
  2:{ inversion Hrun; subst. split; [right; now left|].
      intros k d [Heq|[]]. discriminate. }
  destruct (F5TTS env _ model) as [tts|e2] eqn:Hload.
  2:{ inversion Hrun; subst. split; [right; right; now left|].
      intros k d [Heq|[Heq|[Heq|[]]]]; discriminate. }
  destruct (batch_loop _ _ _ _ _ _ _ _ _ _ _ _ _) as [[outs'|e3] es'] eqn:Hloop;
    [discriminate|].
  inversion Hrun; subst e3 es; clear Hrun. split.
  - right; right; right.
    pose proof Hloop as Hev. apply batch_loop_raises in Hev.
    destruct Hev as (es0 & a & -> & Hraise).
    exists ([Makedirs dir; Print (MsgLoading model); Load model (Ok tts);
             Print (MsgBatchStart (len (stripped_nonblank (splitlines text))))]
            ++ es0), tts, a.
    split; [reflexivity|].
    rewrite <- Hraise. f_equal. now rewrite <- !app_assoc.
  - intros k d Hin.
    destruct Hin as [Heq|[Heq|[Heq|[Heq|Hin]]]]; try discriminate.
    assert (Hin' : In (Print (MsgBatchDone k d))
                       (snd (batch_loop env tts ref_audio ref_text dir speed
                               nfe_step cfg_strength
                               (len (stripped_nonblank (splitlines text))) 1
                               (stripped_nonblank (splitlines text)) []
                               (log ++ [Makedirs dir; Print (MsgLoading model)]
                                    ++ [Load model (Ok tts);
                                        Print (MsgBatchStart
                                                 (len (stripped_nonblank
                                                         (splitlines text))))]))))
        by (rewrite Hloop; exact Hin).
    apply batch_loop_events in Hin'.
    destruct Hin' as [(j & l & _ & _ & Heq)|(a & Heq)]; discriminate.
Qed.

Lemma batch_run_failure_witness :
  exists es',
    clone_voice_batch Sample.env (lit "missing.wav") (lit "script.txt")
      (lit "outputs") (lit "F5TTS_v1_Base") 1%float [] 32 2%float []
    = (Raise (Foreign 1),
       es' ++ [Synth 7%nat
                 {| Infer.ref_file := lit "missing.wav";
                    Infer.ref_text := [];
                    Infer.gen_text := lit "Hello";
                    Infer.file_wave := lit "/home/user/outputs/clip_001.wav";
                    Infer.speed := 1%float;
                    Infer.nfe_step := 32;
                    Infer.cfg_strength := 2%float |}])
    /\ forall k d, ~ In (Print (MsgBatchDone k d))
                     (snd (clone_voice_batch Sample.env (lit "missing.wav")
                             (lit "script.txt") (lit "outputs")
                             (lit "F5TTS_v1_Base") 1%float [] 32 2%float [])).
Proof.
  exists [Makedirs (lit "/home/user/outputs");
          Print (MsgLoading (lit "F5TTS_v1_Base"));
          Load (lit "F5TTS_v1_Base") (Ok 7%nat);
          Print (MsgBatchStart 2);
          Print (MsgBatchItem 1 2 (label (lit "Hello")))].
  split; [vm_compute; reflexivity|].
  destruct (clone_voice_batch Sample.env (lit "missing.wav")
              (lit "script.txt") (lit "outputs") (lit "F5TTS_v1_Base")
              1%float [] 32 2%float []) as [[outs|e] es] eqn:Hrun;
    [vm_compute in Hrun; discriminate|].
  exact (proj2 (batch_run_failure _ _ _ _ _ _ _ _ _ _ Hrun)).
Defined.

(** ** How a single run ends *)

(** X3. A single run loads at most one model and makes at most one synthesis
    call.  When it ends with an exception, either the reference audio is
    missing, the exception is the script's [FileNotFoundError] and nothing
    has happened; or the reference exists and the exception is the one the
    model load or the synthesis call raised, that call being the last effect
    of the run. *)
Theorem single_run_failure env ref_audio gen_text output_path model speed
    ref_text nfe_step cfg_strength log :
  let run := clone_voice env ref_audio gen_text output_path model speed
               ref_text nfe_step cfg_strength log in
  let loading := Print (MsgLoading model) in
  (length (loads (snd run)) <= 1)%nat
  /\ (length (synth_calls (snd run)) <= 1)%nat
  /\ (forall e, fst run = Raise e ->
      (os_path_exists env log ref_audio = false
       /\ e = FileNotFoundError (lit "Reference audio not found: "
                                 ++ ref_audio)
       /\ snd run = [])
      \/ (os_path_exists env log ref_audio = true
          /\ F5TTS env (log ++ [loading]) model = Raise e
          /\ snd run = [loading; Load model (Raise e)])
      \/ (os_path_exists env log ref_audio = true
          /\ exists es' tts a,
               snd run = es' ++ [Synth tts a]
               /\ tts_infer env (log ++ es') tts a = Raise e)).
Proof.
  intros run loading. subst run. rewrite clone_voice_unfold.
  destruct (os_path_exists env log ref_audio) eqn:Hex.
  2:{ simpl. repeat split; auto. intros e He. left. now inversion He. }
  cbv zeta. fold loading.
  destruct (F5TTS env _ model) as [tts|e0] eqn:Hload.
  2:{ simpl. repeat split; auto. intros e He. right; left.
      inversion He; subst. auto. }
  destruct (tts_infer env _ tts _) as [res|e1] eqn:Hinfer.
  - destruct (duration_returns (Infer.wav_len res) (Infer.sr res)) as [d Hd].
    rewrite Hd. simpl. repeat split; auto. discriminate.
  - simpl. repeat split; auto. intros e He. right; right.
    inversion He; subst. split; [reflexivity|].
    eexists [_; _; _], tts, _. split; [reflexivity|]. exact Hinfer.
Qed.

Lemma single_run_failure_witness :
  fst (clone_voice Sample.env (lit "missing.wav") (lit "Hi")
         (lit "output.wav") (lit "F5TTS_v1_Base") 1%float [] 32 2%float [])
  = Raise (FileNotFoundError (lit "Reference audio not found: missing.wav"))
  /\ snd (clone_voice Sample.env (lit "missing.wav") (lit "Hi")
            (lit "output.wav") (lit "F5TTS_v1_Base") 1%float [] 32 2%float [])
     = [].
Proof.
  split; [reflexivity|].
  destruct (single_run_failure Sample.env (lit "missing.wav") (lit "Hi")
              (lit "output.wav") (lit "F5TTS_v1_Base") 1%float [] 32 2%float
              []) as (_ & _ & Hfail).
  destruct (Hfail _ eq_refl)
    as [(_ & _ & Hes)|[(Hex & _)|(Hex & _)]];
    [exact Hes|discriminate Hex|discriminate Hex].
Defined.

(** ** What reaches the synthesis service *)

(** What [main] does is the usage error or what the mode it dispatches to
    does. *)
Lemma main_effects env args log :
  snd (main env args log) = [Usage (lit "Provide either --text or --text_file")]
  \/ (exists text_file,
        Namespace.text_file args = Some text_file /\ text_file <> []
        /\ snd (main env args log)
           = snd (clone_voice_batch env (Namespace.ref_audio args) text_file
                    (Namespace.output_dir args) (Namespace.model args)
                    (Namespace.speed args) (Namespace.ref_text args)
                    (Namespace.nfe_step args) (Namespace.cfg_strength args)
                    log))
  \/ (truthy (Namespace.text_file args) = false
      /\ exists gen_text,
           Namespace.text args = Some gen_text /\ gen_text <> []
           /\ snd (main env args log)
              = snd (clone_voice env (Namespace.ref_audio args) gen_text
                       (Namespace.output args) (Namespace.model args)
                       (Namespace.speed args) (Namespace.ref_text args)
                       (Namespace.nfe_step args)
                       (Namespace.cfg_strength args) log)).
Proof.
  destruct (truthy (Namespace.text_file args)) eqn:Hf.
  - right; left. destruct (Namespace.text_file args) as [[|c f]|] eqn:Ef;
      try discriminate.
    exists (c :: f). repeat split; [discriminate|].
    rewrite (main_batch env args log (text_file := c :: f))
      by (auto; discriminate).
    now rewrite then_ret_tt.
  - destruct (truthy (Namespace.text args)) eqn:Ht.
    + right; right. split; [reflexivity|].
      destruct (Namespace.text args) as [[|c t]|] eqn:Et; try discriminate.
      exists (c :: t). repeat split; [discriminate|].
      rewrite (main_single env args log (gen_text := c :: t))
        by (auto; discriminate).
      now rewrite then_ret_tt.
    + left. now rewrite main_usage.
Qed.

Lemma clone_voice_loads env ref_audio gen_text output_path model speed
    ref_text nfe_step cfg_strength log m r :
  In (m, r)
     (loads (snd (clone_voice env ref_audio gen_text output_path model speed
                    ref_text nfe_step cfg_strength log))) ->
  m = model.
Proof.
  rewrite clone_voice_unfold.
  destruct (os_path_exists env log ref_audio); [|intros []].
  cbv zeta. destruct (F5TTS env _ model) as [h|e].
  - destruct (tts_infer env _ h _) as [res|e]; [destruct (duration _ _)|];
      cbn; intros [Heq|[]]; now inversion Heq.
  - cbn. intros [Heq|[]]. now inversion Heq.
Qed.

Lemma clone_voice_batch_loads env ref_audio text_file output_dir model speed
    ref_text nfe_step cfg_strength log m r :
  In (m, r)
     (loads (snd (clone_voice_batch env ref_audio text_file output_dir model
                    speed ref_text nfe_step cfg_strength log))) ->
  m = model.
Proof.
  intros Hin.
  destruct (read_text env log text_file) as [text|e] eqn:Hread.
  2:{ unfold clone_voice_batch, bind, try in Hin. rewrite Hread in Hin.
      destruct Hin. }
  destruct (stripped_nonblank (splitlines text)) as [|l0 ls] eqn:El.
  { rewrite (clone_voice_batch_blank _ _ _ _ _ _ _ _ _ _ Hread El) in Hin.
    destruct Hin. }
  assert (Hne : stripped_nonblank (splitlines text) <> []) by congruence.
  destruct (os_makedirs env log
              (PosixPath.abspath (os_getcwd env log) output_dir))
    as [u|e] eqn:Hmk.
  - destruct (@clone_voice_batch_facts env ref_audio text_file output_dir
                model speed ref_text nfe_step cfg_strength log text _ _ Hread
                Hne (surjective_pairing _))
      as (_ & _ & Hone & _).
    destruct Hone as [res Hres]; [eauto|].
    rewrite Hres in Hin. destruct Hin as [Heq|[]]. now inversion Heq.
  - rewrite (clone_voice_batch_unfold _ _ _ _ _ _ _ _ _ _ Hread Hne) in Hin.
    cbv zeta in Hin. rewrite Hmk in Hin. destruct Hin.
Qed.

(** X4. Whatever the mode, every synthesis call [main] makes carries the
    reference audio path, the speed, the step count and the guidance strength
    of the command line unchanged, and every model load asks for the model of
    the command line; in single mode the text of the call is the [--text]
    given, untrimmed. *)
Theorem arguments_passed_through env args log :
  (forall tts a,
     In (tts, a) (synth_calls (snd (main env args log))) ->
     Infer.ref_file a = Namespace.ref_audio args
     /\ Infer.speed a = Namespace.speed args
     /\ Infer.nfe_step a = Namespace.nfe_step args
     /\ Infer.cfg_strength a = Namespace.cfg_strength args
     /\ (truthy (Namespace.text_file args) = false ->
         Namespace.text args = Some (Infer.gen_text a)))
  /\ (forall model r,
        In (model, r) (loads (snd (main env args log))) ->
        model = Namespace.model args).
Proof.
  split.
  - intros tts a Hin. apply main_calls in Hin.
    destruct Hin as [(f & Hf & Hne & Hin)|(Hfalse & t & Ht & _ & Hin)].
    + apply clone_voice_batch_calls in Hin.
      destruct Hin as (text & i & line & _ & _ & _ & ->). cbn.
      repeat split. intros Hfalse. rewrite Hf in Hfalse.
      destruct f; [congruence|discriminate].
    + apply clone_voice_calls in Hin. destruct Hin as [_ ->]. cbn.
      repeat split. intros _. exact Ht.
  - intros model r Hin.
    destruct (main_effects env args log)
      as [Hes|[(f & _ & _ & Hes)|(_ & t & _ & _ & Hes)]];
      rewrite Hes in Hin.
    + destruct Hin.
    + now apply clone_voice_batch_loads in Hin.
    + now apply clone_voice_loads in Hin.
Qed.

Lemma arguments_passed_through_witness :
  let args := {| Namespace.ref_audio := lit "speaker.wav";
                 Namespace.text := Some (lit " Hi ");
                 Namespace.text_file := None;
                 Namespace.ref_text := [];
                 Namespace.output := lit "output.wav";
                 Namespace.output_dir := lit "outputs";
                 Namespace.model := lit "F5TTS_Small";
                 Namespace.speed := 0.5%float;
                 Namespace.nfe_step := 64;
                 Namespace.cfg_strength := 3%float |} in
  exists tts a,
    synth_calls (snd (main Sample.env args [])) = [(tts, a)]
    /\ Infer.gen_text a = lit " Hi "
    /\ Infer.speed a = 0.5%float
    /\ Infer.nfe_step a = 64
    /\ loads (snd (main Sample.env args []))
       = [(lit "F5TTS_Small", Ok tts)].
Proof.
  intros args.
  destruct (synth_calls (snd (main Sample.env args []))) as [|[tts a] rest]
    eqn:Hcalls; [vm_compute in Hcalls; discriminate|].
  assert (Hrest : rest = []) by (vm_compute in Hcalls; now inversion Hcalls).
  assert (Htts : tts = 7%nat) by (vm_compute in Hcalls; now inversion Hcalls).
  subst rest tts. exists 7%nat, a.
  destruct (proj1 (arguments_passed_through Sample.env args []) 7%nat a)
    as (_ & Hspeed & Hnfe & _ & Htext).
  { rewrite Hcalls. now left. }
  specialize (Htext eq_refl). inversion Htext as [Hgen].
  repeat split; auto.
Defined.

(** ** The utterances of a batch *)

(** [lstrip] removes a prefix of whitespace. *)
Lemma lstrip_split (s : str) :
  exists w, s = w ++ lstrip s /\ forallb isspace w = true.
Proof.
  induction s as [|c s (w & Hw & Hsp)]; [now exists []|].
  simpl. destruct (isspace c) eqn:Hc.
  - exists (c :: w). simpl. rewrite Hc, Hsp. now rewrite Hw at 1.
  - now exists [].
Qed.

Lemma lstrip_head (s : str) c rest :
  lstrip s = c :: rest -> isspace c = false.
Proof.
  induction s as [|x s IH]; cbn [lstrip]; [discriminate|].
  destruct (isspace x) eqn:Hx; [exact IH|].
  intros Heq. inversion Heq; subst. exact Hx.
Qed.

(** [rstrip] removes a suffix of whitespace. *)
Lemma rstrip_split (s : str) :
  exists w, s = rstrip s ++ w /\ forallb isspace w = true.
Proof.
  unfold rstrip. destruct (lstrip_split (rev s)) as (w & Hw & Hsp).
  exists (rev w). split.
  - rewrite <- rev_app_distr, <- Hw. now rewrite rev_involutive.
  - rewrite forallb_forall in *. intros c Hc. apply Hsp. now apply in_rev.
Qed.

Lemma rstrip_last (s : str) body c :
  rstrip s = body ++ [c] -> isspace c = false.
Proof.
  unfold rstrip. intros Heq. apply (f_equal (@rev _)) in Heq.
  rewrite rev_involutive, rev_app_distr in Heq. simpl in Heq.
  exact (lstrip_head _ Heq).
Qed.

(** What [strip] returns is a piece of its argument, with no whitespace at
    either end. *)
Lemma strip_spec (s : str) :
  (exists before after, s = before ++ strip s ++ after)
  /\ (forall c rest, strip s = c :: rest -> isspace c = false)
  /\ (forall body c, strip s = body ++ [c] -> isspace c = false).
Proof.
  unfold strip.
  destruct (lstrip_split s) as (w & Hw & _).
  destruct (rstrip_split (lstrip s)) as (w' & Hw' & _).
  refine (conj _ (conj _ _)).
  - exists w, w'. now rewrite <- Hw', <- Hw.
  - intros c rest Heq. rewrite Heq in Hw'.
    apply (lstrip_head s (c := c) (rest := rest ++ w')). exact Hw'.
  - intros body c. apply rstrip_last.
Qed.

(** No line of [splitlines] contains a line boundary. *)
Lemma splitlines_from_lines (s : str) : forall cur line c,
  (forall x, In x cur -> islinebreak x = false) ->
  In line (splitlines_from cur s) -> In c line -> islinebreak c = false.
Proof.
  induction s as [s IH] using (well_founded_induction
    (well_founded_ltof _ (@length char))).
  intros cur line c Hcur Hline Hc.
  destruct s as [|x s]; cbn [splitlines_from] in Hline.
  - destruct cur as [|y cur]; [destruct Hline|].
    destruct Hline as [<-|[]]. apply Hcur. now apply in_rev.
  - destruct (islinebreak x) eqn:Hx.
    + destruct Hline as [<-|Hline]; [apply Hcur; now apply in_rev|].
      destruct s as [|x' s'].
      * destruct Hline.
      * destruct ((x =? 13)%N && (x' =? 10)%N).
        -- apply (IH s') with (cur := []) (line := line); auto.
           ++ unfold ltof. simpl. lia.
           ++ intros y [].
        -- apply (IH (x' :: s')) with (cur := []) (line := line); auto.
           ++ unfold ltof. simpl. lia.
           ++ intros y [].
    + apply (IH s) with (cur := x :: cur) (line := line); auto.
      * unfold ltof. simpl. lia.
      * intros y [<-|Hy]; auto.
Qed.

(** X5. Every text a batch run sends to the synthesis service is one non-blank
    line of the source, trimmed: it is not empty, it neither starts nor ends
    with a whitespace character, and it contains no line boundary. *)
Theorem batch_utterances_trimmed env ref_audio text_file output_dir model
    speed ref_text nfe_step cfg_strength log tts a :
  In (tts, a)
     (synth_calls (snd (clone_voice_batch env ref_audio text_file output_dir
                          model speed ref_text nfe_step cfg_strength log))) ->
  Infer.gen_text a <> []
  /\ (forall c rest, Infer.gen_text a = c :: rest -> isspace c = false)
  /\ (forall body c, Infer.gen_text a = body ++ [c] -> isspace c = false)
  /\ (forall c, In c (Infer.gen_text a) -> islinebreak c = false)
  /\ (exists text raw,
        read_text env log text_file = Ok text
        /\ In raw (splitlines text) /\ Infer.gen_text a = strip raw).
Proof.
  intros Hin. apply clone_voice_batch_calls in Hin.
  destruct Hin as (text & i & line & Hread & Hline & _ & ->).
  cbn [Infer.gen_text].
  assert (Hraw : exists raw, In raw (splitlines text) /\ line = strip raw
                             /\ line <> []).
  { clear - Hline. induction (splitlines text) as [|raw raws IH];
      [destruct Hline|].
    simpl in Hline. destruct (strip raw) as [|c s] eqn:Hs.
    - destruct (IH Hline) as (r & Hr & Heq). exists r. split; [now right|auto].
    - destruct Hline as [<-|Hline].
      + exists raw. rewrite Hs. repeat split; [now left|discriminate].
      + destruct (IH Hline) as (r & Hr & Heq). exists r.
        split; [now right|auto]. }
  destruct Hraw as (raw & Hraw & -> & Hne).
  destruct (strip_spec raw) as ((before & after & Hpiece) & Hhead & Hlast).
  refine (conj Hne (conj Hhead (conj Hlast (conj _ _)))).
  - intros c Hc.
    apply (@splitlines_from_lines text [] raw c); auto.
    + intros x [].
    + rewrite Hpiece. apply in_or_app. right. apply in_or_app. now left.
  - exists text, raw. auto.
Qed.

Lemma batch_utterances_trimmed_witness :
  exists tts a,
    In (tts, a)
       (synth_calls (snd (clone_voice_batch Sample.env (lit "speaker.wav")
                            (lit "script.txt") (lit "outputs")
                            (lit "F5TTS_v1_Base") 1%float [] 32 2%float [])))
    /\ Infer.gen_text a = lit "World"
    /\ forall c, In c (Infer.gen_text a) -> islinebreak c = false.
Proof.
  exists 7%nat,
    {| Infer.ref_file := lit "speaker.wav";
       Infer.ref_text := [];
       Infer.gen_text := lit "World";
       Infer.file_wave := lit "/home/user/outputs/clip_002.wav";
       Infer.speed := 1%float;
       Infer.nfe_step := 32;
       Infer.cfg_strength := 2%float |}.
  assert (Hin : In (7%nat,
                    {| Infer.ref_file := lit "speaker.wav";
                       Infer.ref_text := [];
                       Infer.gen_text := lit "World";
                       Infer.file_wave := lit "/home/user/outputs/clip_002.wav";
                       Infer.speed := 1%float;
                       Infer.nfe_step := 32;
                       Infer.cfg_strength := 2%float |})
                   (synth_calls
                      (snd (clone_voice_batch Sample.env (lit "speaker.wav")
                              (lit "script.txt") (lit "outputs")
                              (lit "F5TTS_v1_Base") 1%float [] 32 2%float
                              [])))).
  { vm_compute. right. left. reflexivity. }
  split; [exact Hin|]. split; [reflexivity|].
  exact (proj1 (proj2 (proj2 (proj2
           (batch_utterances_trimmed _ _ _ _ _ _ _ _ _ _ _ _ Hin))))).
Defined.

(** ** Clip names beyond 999 *)

Lemma lit_inj (s t : string) : lit s = lit t -> s = t.
Proof.
  unfold lit. intros Heq.
  rewrite <- (string_of_list_ascii_of_string s).
  rewrite <- (string_of_list_ascii_of_string t). f_equal.
  revert Heq. generalize (list_ascii_of_string t).
  induction (list_ascii_of_string s) as [|a l IH]; intros [|b l'] Heq;
    try discriminate; [reflexivity|].
  simpl in Heq. inversion Heq as [[Hab Hl]]. f_equal; [|now apply IH].
  rewrite <- (ascii_N_embedding a), <- (ascii_N_embedding b). now rewrite Hab.
Qed.

(** The digits of a natural number, as the decimal numeral of the standard
    library. *)
Lemma of_int_nat (i : nat) :
  of_int (Z.of_nat i)
  = lit (NilEmpty.string_of_uint (N.to_uint (N.of_nat i))).
Proof.
  unfold of_int. destruct i as [|i]; [reflexivity|].
  simpl Z.of_nat. simpl N.of_nat. unfold Z.to_int, N.to_uint.
  unfold NilZero.string_of_int, NilZero.string_of_uint.
  destruct (Pos.to_uint (Pos.of_succ_nat i)) eqn:Hd; try reflexivity.
  now apply DecimalPos.Unsigned.to_uint_nonnil in Hd.
Qed.

Lemma lit_leading_zeros (k : nat) (d : Decimal.uint) :
  repeat 48%N k ++ lit (NilEmpty.string_of_uint d)
  = lit (NilEmpty.string_of_uint (Nat.iter k Decimal.D0 d)).
Proof.
  induction k as [|k IH]; [reflexivity|]. simpl. now rewrite IH.
Qed.

Lemma of_uint_leading_zeros (k : nat) (d : Decimal.uint) :
  N.of_uint (Nat.iter k Decimal.D0 d) = N.of_uint d.
Proof.
  induction k as [|k IH]; [reflexivity|]. simpl. exact IH.
Qed.

(** The [03d] format never maps two indices to the same text. *)
Lemma format_03d_inj (i j : nat) :
  format_03d (Z.of_nat i) = format_03d (Z.of_nat j) -> i = j.
Proof.
  unfold format_03d.
  replace (Z.of_nat i <? 0) with false by (symmetry; apply Z.ltb_ge; lia).
  replace (Z.of_nat j <? 0) with false by (symmetry; apply Z.ltb_ge; lia).
  rewrite !Z.abs_eq, !of_int_nat by lia.
  cbn [app]. rewrite !lit_leading_zeros. intros Heq.
  apply lit_inj in Heq.
  apply (f_equal NilEmpty.uint_of_string) in Heq.
  rewrite !NilEmpty.usu in Heq. inversion Heq as [Hd].
  apply (f_equal N.of_uint) in Hd.
  rewrite !of_uint_leading_zeros, !DecimalN.Unsigned.of_to in Hd.
  lia.
Qed.

Lemma clip_path_inj (dir : str) (i j : nat) :
  clip_path dir i = clip_path dir j -> i = j.
Proof.
  destruct (clip_path_app dir) as [prefix Hp]. rewrite !Hp. intros Heq.
  apply app_inv_head, app_inv_tail in Heq. now apply format_03d_inj.
Qed.

(** X6. Whatever the number of lines, a batch run that returns has written every
    line to a path of its own: the returned paths are pairwise distinct, also
    beyond 999 lines, where the index takes four digits or more.  Only the
    order is lost there: the path of clip 1000 sorts before the path of clip
    999. *)
Theorem clip_paths_never_collide :
  (forall dir i j, clip_path dir i = clip_path dir j -> i = j)
  /\ (forall env ref_audio text_file output_dir model speed ref_text nfe_step
        cfg_strength log outs es,
        clone_voice_batch env ref_audio text_file output_dir model speed
          ref_text nfe_step cfg_strength log = (Ok outs, es) ->
        NoDup outs)
  /\ (forall dir, str_lt (clip_path dir 1000) (clip_path dir 999)).
Proof.
  refine (conj clip_path_inj (conj _ _)).
  - intros env ref_audio text_file output_dir model speed ref_text nfe_step
      cfg_strength log outs es Hrun.
    destruct (read_text env log text_file) as [text|e] eqn:Hread.
    2:{ unfold clone_voice_batch, bind, try in Hrun. rewrite Hread in Hrun.
        discriminate. }
    destruct (stripped_nonblank (splitlines text)) as [|l0 ls] eqn:El.
    { rewrite (clone_voice_batch_blank _ _ _ _ _ _ _ _ _ _ Hread El) in Hrun.
      inversion Hrun. constructor. }
    assert (Hne : stripped_nonblank (splitlines text) <> []) by congruence.
    destruct (@clone_voice_batch_facts env ref_audio text_file output_dir
                model speed ref_text nfe_step cfg_strength log text _ _ Hread
                Hne Hrun) as (_ & _ & _ & _ & _ & Hret).
    destruct (Hret outs eq_refl) as [-> _].
    apply NoDup_map_NoDup_ForallPairs; [|apply seq_NoDup].
    intros i j _ _. apply clip_path_inj.
  - intros dir. destruct (clip_path_app dir) as [prefix Hp].
    unfold str_lt. rewrite !Hp, ltb_app. reflexivity.
Qed.

Lemma clip_paths_never_collide_witness :
  clip_path (lit "/home/user/outputs") 1000
  = lit "/home/user/outputs/clip_1000.wav"
  /\ clip_path (lit "/home/user/outputs") 1000
     <> clip_path (lit "/home/user/outputs") 100
  /\ NoDup [lit "/home/user/outputs/clip_001.wav";
            lit "/home/user/outputs/clip_002.wav"].
Proof.
  destruct clip_paths_never_collide as (Hinj & Hrun & _).
  split; [reflexivity|]. split.
  - intros Heq. apply Hinj in Heq. discriminate.
  - apply (Hrun Sample.env (lit "speaker.wav") (lit "script.txt")
             (lit "outputs") (lit "F5TTS_v1_Base") 1%float [] 32 2%float []
             _ (snd (clone_voice_batch Sample.env (lit "speaker.wav")
                       (lit "script.txt") (lit "outputs")
                       (lit "F5TTS_v1_Base") 1%float [] 32 2%float []))).
    reflexivity.
Defined.

(** ** Progress lines *)

Lemma label_length (line : str) : (length (label line) <= 85)%nat.
Proof.
  unfold label, len, slice_to. destruct (Z.gtb_spec (Z.of_nat (length line)) 80).
  - rewrite !length_app, length_firstn.
    change (length quote) with 1%nat. change (length (lit "...")) with 3%nat.
    lia.
  - rewrite !length_app. change (length quote) with 1%nat. lia.
Qed.

(** X7. Every progress line of a batch run announces one non-blank line of the
    source: its index lies between 1 and the number of non-blank lines, which
    is the total it shows; the quoted text is that line, whole when it has at
    most 80 characters, cut to its first 80 characters and three dots
    otherwise, so never longer than 85 characters with its quotes. *)
Theorem progress_lines_bounded env ref_audio text_file output_dir model speed
    ref_text nfe_step cfg_strength log j m shown :
  In (Print (MsgBatchItem j m shown))
     (snd (clone_voice_batch env ref_audio text_file output_dir model speed
             ref_text nfe_step cfg_strength log)) ->
  exists text line,
    read_text env log text_file = Ok text
    /\ In line (stripped_nonblank (splitlines text))
    /\ m = len (stripped_nonblank (splitlines text))
    /\ 1 <= j <= m
    /\ shown = label line
    /\ (length shown <= 85)%nat
    /\ (len line <= 80 -> shown = quote ++ line ++ quote)
    /\ (80 < len line ->
        shown = quote ++ firstn 80 line ++ lit "..." ++ quote).
Proof.
  intros Hin.
  destruct (read_text env log text_file) as [text|e] eqn:Hread.
  2:{ unfold clone_voice_batch, bind, try in Hin. rewrite Hread in Hin.
      destruct Hin. }
  destruct (stripped_nonblank (splitlines text)) as [|l0 ls] eqn:El.
  { rewrite (clone_voice_batch_blank _ _ _ _ _ _ _ _ _ _ Hread El) in Hin.
    destruct Hin as [Heq|[]]. discriminate. }
  assert (Hne : stripped_nonblank (splitlines text) <> []) by congruence.
  rewrite (clone_voice_batch_unfold _ _ _ _ _ _ _ _ _ _ Hread Hne) in Hin.
  cbv zeta in Hin.
  assert (Hloop : forall tts lg,
             In (Print (MsgBatchItem j m shown))
                (snd (batch_loop env tts ref_audio ref_text
                        (PosixPath.abspath (os_getcwd env log) output_dir)
                        speed nfe_step cfg_strength
                        (len (stripped_nonblank (splitlines text))) 1
                        (stripped_nonblank (splitlines text)) [] lg)) ->
             exists line,
               In line (stripped_nonblank (splitlines text))
               /\ m = len (stripped_nonblank (splitlines text))
               /\ 1 <= j <= m /\ shown = label line).
  { intros tts lg Hev. apply batch_loop_events in Hev.
    destruct Hev as [(j' & line & Hline & Hj & Heq)|(a & Heq)];
      [|discriminate].
    inversion Heq; subst. exists line. repeat split; auto; lia. }
  assert (Hfinish : forall line,
             In line (stripped_nonblank (splitlines text))
             /\ m = len (stripped_nonblank (splitlines text))
             /\ 1 <= j <= m /\ shown = label line ->
             exists text' line',
               Ok text = Ok text'
               /\ In line' (stripped_nonblank (splitlines text'))
               /\ m = len (stripped_nonblank (splitlines text'))
               /\ 1 <= j <= m
               /\ shown = label line'
               /\ (length shown <= 85)%nat
               /\ (len line' <= 80 -> shown = quote ++ line' ++ quote)
               /\ (80 < len line' ->
                   shown = quote ++ firstn 80 line' ++ lit "..." ++ quote)).
  { intros line (Hline & Hm & Hj & Hshown). exists text, line.
    repeat split; auto; try lia.
    - subst shown. apply label_length.
    - intros Hshort. subst shown. unfold label.
      destruct (Z.gtb_spec (len line) 80); [lia|reflexivity].
    - intros Hlong. subst shown. unfold label, slice_to.
      destruct (Z.gtb_spec (len line) 80); [reflexivity|lia]. }
  destruct (os_makedirs env log _).
  2:{ destruct Hin as [Heq|[]]. discriminate. }
  destruct (F5TTS env _ model) as [tts|e].
  2:{ destruct Hin as [Heq|[Heq|[Heq|[]]]]; discriminate. }
  match type of Hin with
  | context [batch_loop env tts ?a ?b ?c ?d ?f ?g ?h ?i ?l ?o ?lg] =>
      specialize (Hloop tts lg);
      destruct (batch_loop env tts a b c d f g h i l o lg) as [[outs|e] es0]
  end; cbn [snd] in Hin, Hloop.
  - cbn [app] in Hin.
    destruct Hin as [Heq|[Heq|[Heq|[Heq|Hin]]]]; try discriminate.
    apply in_app_or in Hin. destruct Hin as [Hin|[Heq|[]]];
      [|discriminate].
    destruct (Hloop Hin) as [line Hline]. now apply Hfinish with line.
  - cbn [app] in Hin.
    destruct Hin as [Heq|[Heq|[Heq|[Heq|Hin]]]]; try discriminate.
    destruct (Hloop Hin) as [line Hline]. now apply Hfinish with line.
Qed.

Lemma progress_lines_bounded_witness :
  In (Print (MsgBatchItem 2 2 (quote ++ lit "World" ++ quote)))
     (snd (clone_voice_batch Sample.env (lit "speaker.wav") (lit "script.txt")
             (lit "outputs") (lit "F5TTS_v1_Base") 1%float [] 32 2%float []))
  /\ (length (quote ++ lit "World" ++ quote) <= 85)%nat.
Proof.
  assert (Hin : In (Print (MsgBatchItem 2 2 (quote ++ lit "World" ++ quote)))
                   (snd (clone_voice_batch Sample.env (lit "speaker.wav")
                           (lit "script.txt") (lit "outputs")
                           (lit "F5TTS_v1_Base") 1%float [] 32 2%float []))).
  { vm_compute. do 6 right. left. reflexivity. }
  split; [exact Hin|].
  destruct (progress_lines_bounded _ _ _ _ _ _ _ _ _ _ _ _ _ Hin)
    as (text & line & _ & _ & _ & _ & _ & Hlen & _).
  exact Hlen.
Defined.

(** ** Options of the other mode *)

(** X8. [main] does not reject options that belong to the mode it does not run.
    With a non-empty [--text_file] the batch runs and [--text] and [--output]
    play no part: two command lines that agree on everything else behave
    alike.  Without one, the single clone runs and [--output_dir] plays no
    part, nor does it matter whether [--text_file] is absent or empty. *)
Theorem options_of_other_mode_ignored env a b log :
  Namespace.ref_audio b = Namespace.ref_audio a ->
  Namespace.model b = Namespace.model a ->
  Namespace.speed b = Namespace.speed a ->
  Namespace.ref_text b = Namespace.ref_text a ->
  Namespace.nfe_step b = Namespace.nfe_step a ->
  Namespace.cfg_strength b = Namespace.cfg_strength a ->
  (forall text_file,
     Namespace.text_file a = Some text_file -> text_file <> [] ->
     Namespace.text_file b = Some text_file ->
     Namespace.output_dir b = Namespace.output_dir a ->
     main env a log = main env b log)
  /\ (forall gen_text,
        truthy (Namespace.text_file a) = false ->
        truthy (Namespace.text_file b) = false ->
        Namespace.text a = Some gen_text -> gen_text <> [] ->
        Namespace.text b = Some gen_text ->
        Namespace.output b = Namespace.output a ->
        main env a log = main env b log).
Proof.
  intros Href Hmodel Hspeed Hrt Hnfe Hcfg. split.
  - intros f Ha Hne Hb Hdir.
    rewrite (main_batch env a log Ha Hne), (main_batch env b log Hb Hne).
    now rewrite Href, Hmodel, Hspeed, Hrt, Hnfe, Hcfg, Hdir.
  - intros t Hfa Hfb Ha Hne Hb Hout.
    rewrite (main_single env a log Hfa Ha Hne).
    rewrite (main_single env b log Hfb Hb Hne).
    now rewrite Href, Hmodel, Hspeed, Hrt, Hnfe, Hcfg, Hout.
Qed.

Lemma options_of_other_mode_ignored_witness :
  main Sample.env
    (Namespace.with_text (Sample.batch (lit "speaker.wav") (lit "script.txt"))
       (Some (lit "ignored")))
    []
  = main Sample.env (Sample.batch (lit "speaker.wav") (lit "script.txt")) []
  /\ main Sample.env
       (Namespace.with_text_file (Sample.single (lit "speaker.wav") (lit "Hi"))
          (Some []))
       []
     = main Sample.env (Sample.single (lit "speaker.wav") (lit "Hi")) [].
Proof.
  split.
  - apply (proj1 (options_of_other_mode_ignored Sample.env
                    (Namespace.with_text
                       (Sample.batch (lit "speaker.wav") (lit "script.txt"))
                       (Some (lit "ignored")))
                    (Sample.batch (lit "speaker.wav") (lit "script.txt")) []
                    eq_refl eq_refl eq_refl eq_refl eq_refl eq_refl)
             (lit "script.txt"));
      [reflexivity | discriminate | reflexivity | reflexivity].
  - apply (proj2 (options_of_other_mode_ignored Sample.env
                    (Namespace.with_text_file
                       (Sample.single (lit "speaker.wav") (lit "Hi"))
                       (Some []))
                    (Sample.single (lit "speaker.wav") (lit "Hi")) []
                    eq_refl eq_refl eq_refl eq_refl eq_refl eq_refl)
             (lit "Hi"));
      [reflexivity | reflexivity | reflexivity | discriminate
      | reflexivity | reflexivity].
Defined.

(** ** Where the clips are written *)

Section ClipLocation.

Import PosixPath.

Lemma digits_of_uint (d : Decimal.uint) (c : char) :
  In c (lit (NilEmpty.string_of_uint d)) -> (48 <= c <= 57)%N.
Proof.
  induction d; simpl; intros Hin; [destruct Hin|..];
    (destruct Hin as [<-|Hin]; [lia|auto]).
Qed.

Lemma format_03d_digits (i : nat) (c : char) :
  In c (format_03d (Z.of_nat i)) -> (48 <= c <= 57)%N.
Proof.
  unfold format_03d.
  replace (Z.of_nat i <? 0) with false by (symmetry; apply Z.ltb_ge; lia).
  rewrite Z.abs_eq, of_int_nat by lia. cbn [app].
  rewrite lit_leading_zeros. apply digits_of_uint.
Qed.

(** A clip name is one clean path component. *)
Lemma clip_name_clean (i : nat) : clean (clip_name (Z.of_nat i)).
Proof.
  unfold clean, clip_name. repeat split; try discriminate.
  intros Hin. apply in_app_or in Hin. destruct Hin as [Hin|Hin].
  - vm_compute in Hin. intuition discriminate.
  - apply in_app_or in Hin. destruct Hin as [Hin|Hin].
    + apply format_03d_digits in Hin. unfold sep in Hin. lia.
    + vm_compute in Hin. intuition discriminate.
Qed.

Lemma join_snoc (cs : list str) (name : str) :
  cs <> [] ->
  PyStr.join [sep] (cs ++ [name]) = PyStr.join [sep] cs ++ [sep] ++ name.
Proof.
  induction cs as [|c cs IH]; [congruence|]. intros _.
  destruct cs as [|c' cs']; [reflexivity|].
  change (PyStr.join [sep] ((c :: c' :: cs') ++ [name]))
    with (c ++ [sep] ++ PyStr.join [sep] ((c' :: cs') ++ [name])).
  rewrite IH by discriminate.
  change (PyStr.join [sep] (c :: c' :: cs'))
    with (c ++ [sep] ++ PyStr.join [sep] (c' :: cs')).
  now rewrite <- !app_assoc.
Qed.

Lemma join_last (cs : list str) :
  cs <> [] -> Forall clean cs ->
  exists body c, PyStr.join [sep] cs = body ++ [c] /\ c <> sep.
Proof.
  induction cs as [|x cs IH]; [congruence|]. intros _ Hcs.
  inversion Hcs as [|? ? (Hne & Hsep & _) Hrest]; subst.
  destruct cs as [|x' cs'].
  - destruct (@exists_last _ x Hne) as (body & c & ->).
    exists body, c. split; [reflexivity|].
    intros ->. apply Hsep. apply in_or_app. right. now left.
  - destruct IH as (body & c & Heq & Hc); [discriminate|assumption|].
    exists (x ++ [sep] ++ body), c. split; [|exact Hc].
    change (PyStr.join [sep] (x :: x' :: cs'))
      with (x ++ [sep] ++ PyStr.join [sep] (x' :: cs')).
    rewrite Heq. now rewrite <- !app_assoc.
Qed.

(** Joining a clean component to a normal form adds it as the last
    component. *)
Lemma join_normal_form (k : nat) (cs : list str) (name : str) :
  k = 1%nat \/ k = 2%nat -> Forall clean cs -> clean name ->
  join (normal_form k cs) name = normal_form k (cs ++ [name]).
Proof.
  intros Hk Hcs (Hne & Hsep & _). unfold join.
  assert (Hstart : startswith name [sep] = false).
  { destruct name as [|x name]; [congruence|].
    rewrite startswith_cons. apply andb_false_intro1, N.eqb_neq.
    intros <-. apply Hsep. now left. }
  rewrite Hstart.
  assert (Hnonempty : PyStr.eqb (normal_form k cs) [] = false).
  { apply eqb_neq. unfold normal_form. destruct Hk as [-> | ->]; discriminate. }
  rewrite Hnonempty. cbn [orb]. unfold endswith, normal_form.
  destruct cs as [|c0 cs'].
  - cbn [PyStr.join app]. rewrite app_nil_r.
    destruct Hk as [-> | ->]; reflexivity.
  - destruct (@join_last (c0 :: cs')) as (body & c & Heq & Hc);
      [discriminate|assumption|].
    rewrite join_snoc by discriminate. rewrite Heq.
    rewrite !rev_app_distr. cbn [rev app].
    rewrite startswith_cons.
    replace (sep =? c)%N with false
      by (symmetry; apply N.eqb_neq; congruence).
    cbn [andb]. now rewrite <- !app_assoc.
Qed.

End ClipLocation.

(** X9. Every clip of a batch is written directly in the resolved output
    directory: its path is the normal form of the directory with one more
    component, the clip's file name, which contains no slash.  The path is
    therefore absolute and already normalised: resolving it again, from any
    working directory, returns it unchanged. *)
Theorem clips_in_output_directory env ref_audio text_file output_dir model
    speed ref_text nfe_step cfg_strength log tts a :
  In (tts, a)
     (synth_calls (snd (clone_voice_batch env ref_audio text_file output_dir
                          model speed ref_text nfe_step cfg_strength log))) ->
  exists k comps i,
    (k = 1%nat \/ k = 2%nat) /\ Forall clean comps
    /\ PosixPath.abspath (os_getcwd env log) output_dir = normal_form k comps
    /\ clean (clip_name (Z.of_nat i))
    /\ Infer.file_wave a = normal_form k (comps ++ [clip_name (Z.of_nat i)])
    /\ (forall cwd, PosixPath.abspath cwd (Infer.file_wave a)
                    = Infer.file_wave a).
Proof.
  intros Hin. apply clone_voice_batch_calls in Hin.
  destruct Hin as (text & i & line & _ & _ & _ & ->). cbn [Infer.file_wave].
  destruct (@abspath_normal (os_getcwd env log) output_dir
              (os_getcwd_isabs env log)) as (k & cs & Hk & Hcs & Hdir).
  exists k, cs, i. pose proof (clip_name_clean i) as Hname.
  assert (Hpath : clip_path (PosixPath.abspath (os_getcwd env log) output_dir)
                    i
                  = normal_form k (cs ++ [clip_name (Z.of_nat i)])).
  { unfold clip_path. rewrite Hdir. now apply join_normal_form. }
  refine (conj Hk (conj Hcs (conj Hdir (conj Hname (conj Hpath _))))).
  intros cwd. rewrite Hpath. apply abspath_normal_form; [exact Hk|].
  apply Forall_app. split; [exact Hcs|]. now constructor.
Qed.

Lemma clips_in_output_directory_witness :
  exists tts a,
    In (tts, a)
       (synth_calls (snd (clone_voice_batch Sample.env (lit "speaker.wav")
                            (lit "script.txt") (lit "out/../clips/")
                            (lit "F5TTS_v1_Base") 1%float [] 32 2%float [])))
    /\ Infer.file_wave a = lit "/home/user/clips/clip_001.wav"
    /\ PosixPath.abspath (lit "/models") (Infer.file_wave a)
       = Infer.file_wave a.
Proof.
  exists 7%nat,
    {| Infer.ref_file := lit "speaker.wav";
       Infer.ref_text := [];
       Infer.gen_text := lit "Hello";
       Infer.file_wave := lit "/home/user/clips/clip_001.wav";
       Infer.speed := 1%float;
       Infer.nfe_step := 32;
       Infer.cfg_strength := 2%float |}.
  assert (Hin : In (7%nat,
                    {| Infer.ref_file := lit "speaker.wav";
                       Infer.ref_text := [];
                       Infer.gen_text := lit "Hello";
                       Infer.file_wave := lit "/home/user/clips/clip_001.wav";
                       Infer.speed := 1%float;
                       Infer.nfe_step := 32;
                       Infer.cfg_strength := 2%float |})
                   (synth_calls
                      (snd (clone_voice_batch Sample.env (lit "speaker.wav")
                              (lit "script.txt") (lit "out/../clips/")
                              (lit "F5TTS_v1_Base") 1%float [] 32 2%float
                              [])))).
  { vm_compute. left. reflexivity. }
  split; [exact Hin|]. split; [reflexivity|].
  destruct (clips_in_output_directory _ _ _ _ _ _ _ _ _ _ _ _ Hin)
    as (k & cs & i & _ & _ & _ & _ & _ & Hidem).
  apply Hidem.
Defined.

(** ** Writing a batch job back *)

Lemma strip_fixed (s : str) :
  (forall c rest, s = c :: rest -> isspace c = false) ->
  (forall body c, s = body ++ [c] -> isspace c = false) ->
  strip s = s.
Proof.
  intros Hhead Hlast. unfold strip.
  assert (Hl : lstrip s = s).
  { destruct s as [|c rest]; [reflexivity|].
    cbn [lstrip]. now rewrite (Hhead c rest eq_refl). }
  rewrite Hl. unfold rstrip.
  destruct s as [|x s']; [reflexivity|].
  destruct (@exists_last _ (x :: s')) as (body & c & Heq); [discriminate|].
  rewrite Heq, rev_app_distr. cbn [rev app lstrip].
  rewrite (Hlast body c Heq). cbn [rev].
  now rewrite rev_involutive.
Qed.

Lemma strip_idempotent (s : str) : strip (strip s) = strip s.
Proof.
  destruct (strip_spec s) as (_ & Hhead & Hlast). now apply strip_fixed.
Qed.

Lemma stripped_nonblank_fixed (lines : list str) :
  (forall line, In line lines -> line <> [] /\ strip line = line) ->
  stripped_nonblank lines = lines.
Proof.
  induction lines as [|line rest IH]; intros Hall; [reflexivity|].
  destruct (Hall line (or_introl eq_refl)) as [Hne Hfix].
  cbn [stripped_nonblank]. rewrite Hfix.
  destruct line as [|c l]; [congruence|].
  f_equal. apply IH. intros l' Hl'. apply Hall. now right.
Qed.

Lemma stripped_nonblank_lines (lines : list str) (line : str) :
  In line (stripped_nonblank lines) ->
  line <> [] /\ exists raw, In raw lines /\ line = strip raw.
Proof.
  induction lines as [|raw raws IH]; [intros []|].
  cbn [stripped_nonblank]. destruct (strip raw) as [|c s] eqn:Hs.
  - intros Hin. destruct (IH Hin) as (Hne & r & Hr & Heq).
    split; [exact Hne|]. exists r. split; [now right|exact Heq].
  - intros [<-|Hin].
    + split; [discriminate|]. exists raw. split; [now left|].
      now rewrite Hs.
    + destruct (IH Hin) as (Hne & r & Hr & Heq).
      split; [exact Hne|]. exists r. split; [now right|exact Heq].
Qed.

Lemma splitlines_from_app (l : str) : forall cur s,
  (forall c, In c l -> islinebreak c = false) ->
  splitlines_from cur (l ++ s) = splitlines_from (rev l ++ cur) s.
Proof.
  induction l as [|x l IH]; intros cur s Hl; [reflexivity|].
  cbn [app splitlines_from]. rewrite (Hl x (or_introl eq_refl)).
  rewrite IH by (intros c Hc; apply Hl; now right).
  cbn [rev]. now rewrite <- app_assoc.
Qed.

Lemma splitlines_terminated (lines : list str) :
  (forall line c, In line lines -> In c line -> islinebreak c = false) ->
  splitlines (flat_map (fun line => line ++ [10%N]) lines) = lines.
Proof.
  unfold splitlines.
  induction lines as [|line rest IH]; intros Hall; [reflexivity|].
  cbn [flat_map]. rewrite <- app_assoc.
  rewrite splitlines_from_app
    by (intros c Hc; apply (Hall line c); [now left|exact Hc]).
  rewrite app_nil_r. cbn [app splitlines_from].
  change (islinebreak 10%N) with true. cbv iota.
  rewrite rev_involutive. f_equal.
  assert (Hrest : splitlines_from []
                    (flat_map (fun l => l ++ [10%N]) rest) = rest).
  { apply IH. intros l c Hl Hc. apply (Hall l c); [now right|exact Hc]. }
  destruct (flat_map (fun l => l ++ [10%N]) rest) as [|c' rest'] eqn:Hf;
    [exact Hrest|].
  change ((10 =? 13)%N) with false. cbn [andb]. exact Hrest.
Qed.

(** X10. The job of a batch is a fixed point of the way it is read: writing its
    utterances to a file, one per line, and reading that file as a text
    source gives the same utterances in the same order; in particular
    trimming and filtering them a second time changes nothing. *)
Theorem batch_job_round_trip (text : str) :
  let job := stripped_nonblank (splitlines text) in
  stripped_nonblank (splitlines (flat_map (fun line => line ++ [10%N]) job))
  = job
  /\ stripped_nonblank job = job
  /\ (forall line, In line job -> strip line = line).
Proof.
  intros job.
  assert (Hfix : forall line, In line job -> line <> [] /\ strip line = line).
  { intros line Hin. apply stripped_nonblank_lines in Hin.
    destruct Hin as (Hne & raw & _ & ->). split; [exact Hne|].
    apply strip_idempotent. }
  assert (Hnobreak : forall line c,
             In line job -> In c line -> islinebreak c = false).
  { intros line c Hin Hc. apply stripped_nonblank_lines in Hin.
    destruct Hin as (_ & raw & Hraw & ->).
    destruct (strip_spec raw) as ((before & after & Hpiece) & _ & _).
    apply (@splitlines_from_lines text [] raw c); auto.
    - intros x [].
    - rewrite Hpiece. apply in_or_app. right. apply in_or_app. now left. }
  refine (conj _ (conj _ _)).
  - rewrite (splitlines_terminated _ Hnobreak).
    now apply stripped_nonblank_fixed.
  - now apply stripped_nonblank_fixed.
  - intros line Hin. now apply Hfix.
Qed.

Lemma batch_job_round_trip_witness :
  stripped_nonblank (splitlines Sample.script) = [lit "Hello"; lit "World"]
  /\ stripped_nonblank
       (splitlines (lit "Hello" ++ [10%N] ++ lit "World" ++ [10%N]))
     = [lit "Hello"; lit "World"]
  /\ strip (lit "World") = lit "World".
Proof.
  destruct (batch_job_round_trip Sample.script) as (Hback & _ & Hfix).
  split; [reflexivity|]. split; [exact Hback|].
  apply Hfix. right. left. reflexivity.
Defined.
